(** * Book catalogue: the Express API of [server.js] and the React client
    of [BooksApp.jsx], as a shallow embedding.

    - A JavaScript string is a [string]: a sequence of code units below 256
      (Basic Latin and Latin-1), on which [trim] and [toLowerCase] act as
      the built-ins do on these code units.
    - A book id is an integer-valued JavaScript number, a [Z]: the ids the
      server stores are [1], [2], readings of [Date.now()] and values that
      compared equal to one of these.
    - The in-memory array [books] is a [list Book]; an assignment
      [books[i] = x] is stdpp's [<[i:=x]>], [books.push(x)] is [++ [x]].
    - Built-ins whose result the repository does not fix are parameters:
      [Number] on a URL parameter and [String.prototype.localeCompare] are
      variables of a section, the reading of [Date.now()] is an argument of
      the handler that reads it. *)

From Stdlib Require Import ZArith Lia Bool Ascii String.
From stdpp Require Import base list sorting strings pretty.

Local Open Scope string_scope.
Local Open Scope list_scope.
Local Open Scope Z_scope.

(** ** Data model *)

(** [{ id, title, author }] *)
Record Book : Type := mkBook { id : Z; title : string; author : string }.

#[global] Instance Book_eq_dec : EqDecision Book.
Proof. solve_decision. Defined.

(** What [res.json(...)] is given: the array, one record, a [{ message }]
    object, or [undefined] (an index read out of range). *)
Inductive json : Type :=
| JBooks (bs : list Book)
| JBook (b : Book)
| JMessage (message : string)
| JUndefined.

Record response : Type := mkResponse { status : Z; body : json }.

(** [res.json(x)] answers 200, [res.status(c).json(x)] answers [c]. *)
Definition res_json (x : json) : response := mkResponse 200 x.
Definition res_status_json (c : Z) (x : json) : response := mkResponse c x.

(** [Array.prototype.findIndex]: the first index whose element satisfies
    [p], [-1] when there is none. *)
Fixpoint findIndex_from {A : Type} (p : A -> bool) (l : list A) (i : Z) : Z :=
  match l with
  | [] => -1
  | x :: l' => if p x then i else findIndex_from p l' (i + 1)
  end.

Definition findIndex {A : Type} (p : A -> bool) (l : list A) : Z :=
  findIndex_from p l 0.

(** [books[i]] read as a response body. *)
Definition index_json (books : list Book) (i : Z) : json :=
  match books !! Z.to_nat i with
  | Some b => JBook b
  | None => JUndefined
  end.

(** ** The API service ([server.js]) *)

Section Server.

(** [Number(id)] on the [:id] URL parameter, restricted to its
    integer values: [None] stands for [NaN] and for every value that is not
    an integer, none of which equals a stored id. *)
Variable Number : string -> option Z.

(** [b.id == id], a number against the URL string: the string is converted
    with [Number] and the numbers are compared. *)
Definition looseEq (n : Z) (s : string) : bool :=
  match Number s with
  | Some m => n =? m
  | None => false
  end.

(** [b.id != id] *)
Definition looseNe (n : Z) (s : string) : bool := negb (looseEq n s).

(** [let books = [ ... ]] *)
Definition initial_books : list Book :=
  [ mkBook 1 "The Hobbit" "J.R.R. Tolkien";
    mkBook 2 "1984" "George Orwell" ].

(** [app.get("/books")] *)
Definition get_books (books : list Book) : list Book * response :=
  (books, res_json (JBooks books)).

(** [app.post("/books")]; [now] is the reading of [Date.now()]. *)
Definition post_books (now : Z) (title author : string) (books : list Book)
  : list Book * response :=
  let newBook := mkBook now title author in
  let books := books ++ [newBook] in
  (books, res_status_json 201 (JBook newBook)).

(** [app.put("/books/:id")] *)
Definition put_book (id_param title author : string) (books : list Book)
  : list Book * response :=
  let bookIndex := findIndex (fun b => looseEq (id b) id_param) books in
  if negb (bookIndex =? -1) then
    match Number id_param with
    | Some n =>
        let books := <[Z.to_nat bookIndex := mkBook n title author]> books in
        (books, res_json (index_json books bookIndex))
    | None =>
        (* no record compares equal to a parameter that is not an integer *)
        (books, res_json (index_json books bookIndex))
    end
  else
    (books, res_status_json 404 (JMessage "Book not found")).

(** [app.delete("/books/:id")] *)
Definition delete_book (id_param : string) (books : list Book)
  : list Book * response :=
  let books := List.filter (fun b => looseNe (id b) id_param) books in
  (books, res_json (JMessage "Book deleted")).

(** The four routes. *)
Inductive request : Type :=
| GET_books
| POST_books (title author : string)
| PUT_book (id_param title author : string)
| DELETE_book (id_param : string).

(** One request handled at clock reading [now]. *)
Definition handle (now : Z) (req : request) (books : list Book)
  : list Book * response :=
  match req with
  | GET_books => get_books books
  | POST_books t a => post_books now t a books
  | PUT_book i t a => put_book i t a books
  | DELETE_book i => delete_book i books
  end.

(** A run of the server: the requests in the order they are handled, each
    with the clock reading at that moment. *)
Fixpoint run (trace : list (Z * request)) (books : list Book) : list Book :=
  match trace with
  | [] => books
  | (now, req) :: trace' => run trace' (fst (handle now req books))
  end.

(** The states the collection can be in. *)
Inductive reachable : list Book -> Prop :=
| reachable_initial : reachable initial_books
| reachable_step books now req :
    reachable books -> reachable (fst (handle now req books)).

(** [ids books]: the ids stored, in order. *)
Definition ids (books : list Book) : list Z := map id books.

(** Every [POST] of the run reads a clock value that is not a stored id. *)
Fixpoint fresh_stamps (trace : list (Z * request)) (books : list Book) : bool :=
  match trace with
  | [] => true
  | (now, req) :: trace' =>
      match req with
      | POST_books _ _ => bool_decide (now ∉ ids books)
      | _ => true
      end && fresh_stamps trace' (fst (handle now req books))
  end.

End Server.

(** A [Number] for the examples: canonical decimal digits, [None] otherwise. *)
Definition digit_value (c : ascii) : option Z :=
  let n := Z.of_nat (nat_of_ascii c) in
  if (48 <=? n) && (n <=? 57) then Some (n - 48) else None.

Fixpoint decimal_from (s : string) (acc : Z) : option Z :=
  match s with
  | EmptyString => Some acc
  | String c s' =>
      match digit_value c with
      | Some d => decimal_from s' (10 * acc + d)
      | None => None
      end
  end.

Definition decimalNumber (s : string) : option Z :=
  match s with
  | EmptyString => None
  | _ => decimal_from s 0
  end.

(** ** String built-ins used by the client *)

(** White space and line terminators that [trim] strips, among the code
    units below 256: TAB, LF, VT, FF, CR, SPACE and NO-BREAK SPACE (160). *)
Definition isWhiteSpace (c : ascii) : bool :=
  let n := nat_of_ascii c in
  ((9 <=? n)%nat && (n <=? 13)%nat) || (n =? 32)%nat || (n =? 160)%nat.

Fixpoint trimStart (s : string) : string :=
  match s with
  | EmptyString => EmptyString
  | String c s' => if isWhiteSpace c then trimStart s' else s
  end.

Fixpoint trimEnd (s : string) : string :=
  match s with
  | EmptyString => EmptyString
  | String c s' =>
      match trimEnd s' with
      | EmptyString => if isWhiteSpace c then EmptyString else String c EmptyString
      | t => String c t
      end
  end.

(** [String.prototype.trim] *)
Definition trim (s : string) : string := trimEnd (trimStart s).

(** The lower case of a code unit below 256: A-Z (65-90) and the Latin-1
    capitals (192-214 and 216-222; 215 is the multiplication sign) are 32
    below their lower case. *)
Definition lowerChar (c : ascii) : ascii :=
  let n := nat_of_ascii c in
  if ((65 <=? n)%nat && (n <=? 90)%nat)
     || ((192 <=? n)%nat && (n <=? 214)%nat)
     || ((216 <=? n)%nat && (n <=? 222)%nat)
  then ascii_of_nat (n + 32) else c.

(** The upper case of a code unit, when it is a code unit below 256 too: a-z
    and the Latin-1 small letters 224-246 and 248-254 (247 is the division
    sign). The sharp s (223), the micro sign (181) and y with diaeresis (255)
    have no capital among these code units and stay as they are. *)
Definition upperChar (c : ascii) : ascii :=
  let n := nat_of_ascii c in
  if ((97 <=? n)%nat && (n <=? 122)%nat)
     || ((224 <=? n)%nat && (n <=? 246)%nat)
     || ((248 <=? n)%nat && (n <=? 254)%nat)
  then ascii_of_nat (n - 32) else c.

(** [String.prototype.toLowerCase] *)
Fixpoint toLowerCase (s : string) : string :=
  match s with
  | EmptyString => EmptyString
  | String c s' => String (lowerChar c) (toLowerCase s')
  end.

(** [s.startsWith(q)] *)
Fixpoint startsWith (s q : string) : bool :=
  match q, s with
  | EmptyString, _ => true
  | String _ _, EmptyString => false
  | String d q', String c s' => Ascii.eqb c d && startsWith s' q'
  end.

(** [String.prototype.includes]: [q] occurs in [s] at some position. *)
Fixpoint includes (s q : string) : bool :=
  startsWith s q ||
  match s with
  | EmptyString => false
  | String _ s' => includes s' q
  end.

(** [s.split(sep)] for a one-character separator. *)
Fixpoint split (sep : ascii) (s : string) : list string :=
  match s with
  | EmptyString => [EmptyString]
  | String c s' =>
      if Ascii.eqb c sep then EmptyString :: split sep s'
      else match split sep s' with
           | [] => [String c EmptyString]
           | w :: ws => String c w :: ws
           end
  end.

(** [s.length] *)
Definition strlen (s : string) : Z := Z.of_nat (String.length s).

(** All the ways of writing [s] in upper and lower case letters: each letter
    that has both cases among the code units below 256 is taken in either. *)
Fixpoint casings (s : string) : list string :=
  match s with
  | EmptyString => [EmptyString]
  | String c s' =>
      let rest := casings s' in
      if Ascii.eqb (lowerChar c) (upperChar c) then map (String c) rest
      else map (String (lowerChar c)) rest ++ map (String (upperChar c)) rest
  end.

(** ** The client ([BooksApp.jsx]) *)

(** How an awaited promise settles. *)
Inductive settled (A : Type) : Type :=
| Fulfilled (value : A)
| Rejected (message : string).
Arguments Fulfilled {A} value.
Arguments Rejected {A} message.

(** A [fetch] response: [res.ok] and what [res.json()] settles to. *)
Record Response (A : Type) : Type := mkRes { ok : bool; json_body : settled A }.
Arguments mkRes {A} ok json_body.
Arguments ok {A} r.
Arguments json_body {A} r.

Inductive ToastType : Type := success | error.
Record Toast : Type := mkToast { type : ToastType; message : string }.

Module Form.
(** [{ title, author }]: the draft in the modal, and the payload sent. *)
Record t : Type := mk { title : string; author : string }.
End Form.

Module FormErrors.
(** [errs]: a key is present when its field is rejected. *)
Record t : Type := mk { title : option string; author : option string }.
Definition keys (e : t) : list string :=
  (match title e with Some _ => ["title"] | None => [] end) ++
  (match author e with Some _ => ["author"] | None => [] end).
End FormErrors.

(** The component's state: the mirror [books] and the UI state. *)
Record State : Type := mkState {
  books : list Book;
  query : string;
  sortBy : string;
  page : Z;
  isFormOpen : bool;
  editingBook : option Book;
  deleting : option Book;
  toast : option Toast;
  form : Form.t;
  formErrors : FormErrors.t
}.

Definition setBooks (f : list Book -> list Book) (st : State) : State :=
  mkState (f (books st)) (query st) (sortBy st) (page st) (isFormOpen st)
          (editingBook st) (deleting st) (toast st) (form st) (formErrors st).

Definition setToast (t : option Toast) (st : State) : State :=
  mkState (books st) (query st) (sortBy st) (page st) (isFormOpen st)
          (editingBook st) (deleting st) t (form st) (formErrors st).

Definition setIsFormOpen (b : bool) (st : State) : State :=
  mkState (books st) (query st) (sortBy st) (page st) b
          (editingBook st) (deleting st) (toast st) (form st) (formErrors st).

Definition setFormErrors (e : FormErrors.t) (st : State) : State :=
  mkState (books st) (query st) (sortBy st) (page st) (isFormOpen st)
          (editingBook st) (deleting st) (toast st) (form st) e.

Definition setDeleting (d : option Book) (st : State) : State :=
  mkState (books st) (query st) (sortBy st) (page st) (isFormOpen st)
          (editingBook st) d (toast st) (form st) (formErrors st).

(** The toast effect's timer: after 3000 ms the toast is cleared. *)
Definition toast_timeout (st : State) : State := setToast None st.

(** [a || b] on strings: the empty string is falsy. *)
Definition or_else (a b : string) : string :=
  match a with EmptyString => b | _ => a end.

(** The requests the client issues. *)
Inductive http_request : Type :=
| POST (body : Form.t)
| PUT (id_param : Z) (body : Book)
| DELETE (id_param : Z).

(** [s] used as a condition: a string is truthy unless it is empty. *)
Definition truthy (s : string) : bool :=
  match s with EmptyString => false | _ => true end.

(** The [try] block up to [await res.json()]: a rejected [fetch] or a
    rejected [res.json()] throws its own error, a response that is not ok
    throws [new Error(failure)]. *)
Definition await_json {A : Type} (failure : string) (res : settled (Response A))
  : settled A :=
  match res with
  | Rejected m => Rejected m
  | Fulfilled r => if negb (ok r) then Rejected failure else json_body r
  end.

(** The [try] block of [removeBook], which does not read the body. *)
Definition await_ok {A : Type} (failure : string) (res : settled (Response A))
  : settled unit :=
  match res with
  | Rejected m => Rejected m
  | Fulfilled r => if negb (ok r) then Rejected failure else Fulfilled tt
  end.

Definition createBook_request (payload : Form.t) : http_request := POST payload.

(** [createBook(payload)]; [res] is how the [fetch] settles. The result is
    the state after the call and what the call returns or throws. *)
Definition createBook (payload : Form.t) (res : settled (Response Book))
    (st : State) : State * settled Book :=
  match await_json "Failed to create book" res with
  | Fulfilled created =>
      let st := setBooks (fun prev => prev ++ [created]) st in
      let st := setToast (Some (mkToast success "Book added")) st in
      (st, Fulfilled created)
  | Rejected m =>
      (setToast (Some (mkToast error (or_else m "Failed to add"))) st, Rejected m)
  end.

Definition updateBook_request (payload : Book) : http_request :=
  PUT (id payload) payload.

(** [updateBook(payload)] *)
Definition updateBook (payload : Book) (res : settled (Response Book))
    (st : State) : State * settled Book :=
  match await_json "Failed to update book" res with
  | Fulfilled updated =>
      let st :=
        setBooks (fun prev =>
                    map (fun b => if id b =? id updated then updated else b) prev) st in
      let st := setToast (Some (mkToast success "Book updated")) st in
      (st, Fulfilled updated)
  | Rejected m =>
      (setToast (Some (mkToast error (or_else m "Failed to update"))) st, Rejected m)
  end.

Definition removeBook_request (id_param : Z) : http_request := DELETE id_param.

(** [removeBook(id)] *)
Definition removeBook {A : Type} (id_param : Z) (res : settled (Response A))
    (st : State) : State * settled unit :=
  match await_ok "Failed to delete" res with
  | Fulfilled _ =>
      let st :=
        setBooks (fun prev => List.filter (fun b => negb (id b =? id_param)) prev) st in
      let st := setToast (Some (mkToast success "Book deleted")) st in
      (st, Fulfilled tt)
  | Rejected m =>
      (setToast (Some (mkToast error (or_else m "Failed to delete"))) st, Rejected m)
  end.

(** The confirm button of the delete dialog. *)
Definition confirmDelete {A : Type} (res : settled (Response A)) (st : State) : State :=
  match deleting st with
  | Some d =>
      match removeBook (id d) res st with
      | (st, Fulfilled _) => setDeleting None st
      | (st, Rejected _) => st
      end
  | None => st
  end.

(** [validateForm()]: records the errors, answers whether there is none. *)
Definition validateForm (st : State) : State * bool :=
  let f := form st in
  let errs :=
    FormErrors.mk
      (if negb (truthy (Form.title f)) || (strlen (trim (Form.title f)) <? 2)
       then Some "Title should be at least 2 chars" else None)
      (if negb (truthy (Form.author f)) || (strlen (trim (Form.author f)) <? 3)
       then Some "Author should be at least 3 chars" else None) in
  (setFormErrors errs st,
   Z.of_nat (length (FormErrors.keys errs)) =? 0).

(** [submitForm(e)]: the state after the handler and the request it issued,
    if any; [res] is how that request's [fetch] settles. *)
Definition submitForm (res : settled (Response Book)) (st : State)
  : State * option http_request :=
  let '(st, valid) := validateForm st in
  if negb valid then (st, None)
  else
    let payload := Form.mk (trim (Form.title (form st))) (trim (Form.author (form st))) in
    match editingBook st with
    | Some editing =>
        let body := mkBook (id editing) (Form.title payload) (Form.author payload) in
        match updateBook body res st with
        | (st, Fulfilled _) => (setIsFormOpen false st, Some (updateBook_request body))
        | (st, Rejected _) => (st, Some (updateBook_request body))
        end
    | None =>
        match createBook payload res st with
        | (st, Fulfilled _) => (setIsFormOpen false st, Some (createBook_request payload))
        | (st, Rejected _) => (st, Some (createBook_request payload))
        end
    end.

(** [Array.prototype.sort(cmp)]: a stable sort, which for a consistent
    comparator is this insertion sort: each element, left to right, goes in
    front of the first element of the sorted prefix that [cmp] puts after it. *)
Fixpoint sort_insert {A : Type} (cmp : A -> A -> Z) (x : A) (l : list A) : list A :=
  match l with
  | [] => [x]
  | y :: l' => if cmp x y <? 0 then x :: l else y :: sort_insert cmp x l'
  end.

Definition sort {A : Type} (cmp : A -> A -> Z) (l : list A) : list A :=
  fold_left (fun sorted x => sort_insert cmp x sorted) l [].

(** [x === "lit"] for [x] read by destructuring ([None] is [undefined]). *)
Definition is_string (x : option string) (lit : string) : bool :=
  match x with
  | Some s => String.eqb s lit
  | None => false
  end.

Section Client.

(** [a.localeCompare(b)]: negative, zero or positive; the collation is the
    host's. *)
Variable localeCompare : string -> string -> Z.

(** The comparator given to [arr.sort]. *)
Definition compareBooks (fld dir : option string) (a b : Book) : Z :=
  if is_string fld "title" then
    if is_string dir "asc" then localeCompare (title a) (title b)
    else localeCompare (title b) (title a)
  else if is_string fld "author" then
    if is_string dir "asc" then localeCompare (author a) (author b)
    else localeCompare (author b) (author a)
  else
    if is_string dir "asc" then id a - id b else id b - id a.

(** The [filtered] memo: the mirror filtered by [query], sorted by [sortBy]. *)
Definition filtered (books : list Book) (query sortBy : string) : list Book :=
  let q := toLowerCase (trim query) in
  let arr := books in
  let arr :=
    if truthy q then
      List.filter (fun b => includes (toLowerCase (title b)) q
                            || includes (toLowerCase (author b)) q) arr
    else arr in
  let parts := split "-" sortBy in
  let fld := parts !! 0%nat in
  let dir := parts !! 1%nat in
  sort (compareBooks fld dir) arr.

End Client.

(** A request fails when [fetch] rejects or the response is not ok. *)
Definition request_failed {A : Type} (res : settled (Response A)) : bool :=
  match res with
  | Rejected _ => true
  | Fulfilled r => negb (ok r)
  end.

(** The response is ok but [res.json()] rejects. *)
Definition body_unreadable {A : Type} (res : settled (Response A)) : bool :=
  match res with
  | Rejected _ => false
  | Fulfilled r =>
      ok r && match json_body r with Rejected _ => true | Fulfilled _ => false end
  end.

(** A string is blank when it is empty or holds white space only. *)
Fixpoint blank (s : string) : bool :=
  match s with
  | EmptyString => true
  | String c s' => isWhiteSpace c && blank s'
  end.

(** A collation for the examples: code units compared left to right. *)
Fixpoint codeUnitCompare (a b : string) : Z :=
  match a, b with
  | EmptyString, EmptyString => 0
  | EmptyString, String _ _ => -1
  | String _ _, EmptyString => 1
  | String c a', String d b' =>
      let m := Z.of_nat (nat_of_ascii c) in
      let n := Z.of_nat (nat_of_ascii d) in
      if m <? n then -1 else if n <? m then 1 else codeUnitCompare a' b'
  end.

Definition hobbit := mkBook 1 "The Hobbit" "J.R.R. Tolkien".
Definition orwell := mkBook 2 "1984" "George Orwell".

(** Inputs for the examples. *)
Definition sample_trace : list (Z * request) :=
  [ (1700000000000, POST_books "Dune" "Frank Herbert");
    (1700000000000, PUT_book "2" "Animal Farm" "George Orwell");
    (1700000000000, DELETE_book "1");
    (1700000000001, POST_books "Emma" "Jane Austen");
    (1700000000002, GET_books) ].

Definition sample_state : State :=
  mkState [hobbit; orwell] "" "id-desc" 1 true None None None
          (Form.mk "  Dune " "Frank Herbert  ") (FormErrors.mk None None).

(** ** The rest of the component: forms, paging, loading, the wire *)

Definition setPage (f : Z -> Z) (st : State) : State :=
  mkState (books st) (query st) (sortBy st) (f (page st)) (isFormOpen st)
          (editingBook st) (deleting st) (toast st) (form st) (formErrors st).

Definition setQuery (q : string) (st : State) : State :=
  mkState (books st) q (sortBy st) (page st) (isFormOpen st)
          (editingBook st) (deleting st) (toast st) (form st) (formErrors st).

Definition setSortBy (s : string) (st : State) : State :=
  mkState (books st) (query st) s (page st) (isFormOpen st)
          (editingBook st) (deleting st) (toast st) (form st) (formErrors st).

Definition setEditingBook (b : option Book) (st : State) : State :=
  mkState (books st) (query st) (sortBy st) (page st) (isFormOpen st)
          b (deleting st) (toast st) (form st) (formErrors st).

Definition setForm (f : Form.t -> Form.t) (st : State) : State :=
  mkState (books st) (query st) (sortBy st) (page st) (isFormOpen st)
          (editingBook st) (deleting st) (toast st) (f (form st)) (formErrors st).

(** [const emptyForm = { title: '', author: '' }] *)
Definition emptyForm : Form.t := Form.mk "" "".

(** The state of the first render. *)
Definition initial_state : State :=
  mkState [] "" "id-desc" 1 false None None None emptyForm (FormErrors.mk None None).

(** [openCreate()] *)
Definition openCreate (st : State) : State :=
  let st := setEditingBook None st in
  let st := setForm (fun _ => emptyForm) st in
  let st := setFormErrors (FormErrors.mk None None) st in
  setIsFormOpen true st.

(** [openEdit(book)] *)
Definition openEdit (book : Book) (st : State) : State :=
  let st := setEditingBook (Some book) st in
  let st := setForm (fun _ => Form.mk (title book) (author book)) st in
  let st := setFormErrors (FormErrors.mk None None) st in
  setIsFormOpen true st.

(** [Array.prototype.slice(start, end)]: a negative index counts from the
    end, both are clamped to the array. *)
Definition slice {A : Type} (l : list A) (start stop : Z) : list A :=
  let len := Z.of_nat (length l) in
  let k := if start <? 0 then Z.max (len + start) 0 else Z.min start len in
  let final := if stop <? 0 then Z.max (len + stop) 0 else Z.min stop len in
  take (Z.to_nat (final - k)) (drop (Z.to_nat k) l).

(** [Math.ceil(n / d)] for an array length [n] and [d > 0]. *)
Definition ceil_div (n d : Z) : Z := - ((- n) / d).

Definition pageSize : Z := 8.

(** [Math.max(1, Math.ceil(filtered.length / pageSize))] *)
Definition totalPages (shown : list Book) : Z :=
  Z.max 1 (ceil_div (Z.of_nat (length shown)) pageSize).

(** [filtered.slice((page - 1) * pageSize, page * pageSize)] *)
Definition pageItems (shown : list Book) (page : Z) : list Book :=
  slice shown ((page - 1) * pageSize) (page * pageSize).

(** The two bounds of the footer, [Showing from–to of n books]. *)
Definition showingFrom (shown : list Book) (page : Z) : Z :=
  Z.min (Z.of_nat (length shown)) ((page - 1) * pageSize + 1).

Definition showingTo (shown : list Book) (page : Z) : Z :=
  Z.min (Z.of_nat (length shown)) (page * pageSize).

(** What the user does, and the requests that settle. *)
Inductive event : Type :=
| ClickPrev
| ClickNext
| ClickFirst
| ClickLast
| ChangeQuery (value : string)
| ChangeSort (value : string)
| ClickReset
| ClickAdd
| ClickEdit (book : Book)
| ClickDelete (book : Book)
| ChangeTitle (value : string)
| ChangeAuthor (value : string)
| CloseForm
| SubmitForm (res : settled (Response Book))
| CancelDelete
| ConfirmDelete (res : settled (Response json))
| ToastTimeout.

(** The main area of the page. *)
Inductive Content : Type :=
| Spinner
| ErrorText (text : string)
| NoBooks
| Grid (cards : list Book).

Module Loader.
(** The mirror and UI state, with the [loading] and [error] of the first fetch. *)
Record t : Type := mk { ui : State; loading : bool; error : option string }.
End Loader.

Definition initial_app : Loader.t := Loader.mk initial_state true None.

(** The mount effect's [load()]; [res] is how [fetch] settles and [mounted]
    whether the component is still mounted then. *)
Definition load (mounted : bool) (res : settled (Response (list Book)))
    (app : Loader.t) : Loader.t :=
  let app := Loader.mk (Loader.ui app) true None in
  let app :=
    match await_json "Failed to fetch books" res with
    | Fulfilled data =>
        if mounted
        then Loader.mk (setBooks (fun _ => data) (Loader.ui app))
                       (Loader.loading app) (Loader.error app)
        else app
    | Rejected m =>
        if mounted
        then Loader.mk (Loader.ui app) (Loader.loading app)
                       (Some (or_else m "Unknown error"))
        else app
    end in
  if mounted then Loader.mk (Loader.ui app) false (Loader.error app) else app.

Section Page.

Variable localeCompare : string -> string -> Z.

(** [filtered] of the current state. *)
Definition shown (st : State) : list Book :=
  filtered localeCompare (books st) (query st) (sortBy st).

(** The effect on [totalPages]: [if (page > totalPages) setPage(totalPages)]. *)
Definition clampPage (st : State) : State :=
  if page st >? totalPages (shown st)
  then setPage (fun _ => totalPages (shown st)) st
  else st.

(** The handler of each event. *)
Definition handler (ev : event) (st : State) : State :=
  match ev with
  | ClickPrev => setPage (fun p => Z.max 1 (p - 1)) st
  | ClickNext => setPage (fun p => Z.min (totalPages (shown st)) (p + 1)) st
  | ClickFirst => setPage (fun _ => 1) st
  | ClickLast => setPage (fun _ => totalPages (shown st)) st
  | ChangeQuery v => setPage (fun _ => 1) (setQuery v st)
  | ChangeSort v => setSortBy v st
  | ClickReset => setPage (fun _ => 1) (setSortBy "id-desc" (setQuery "" st))
  | ClickAdd => openCreate st
  | ClickEdit b => openEdit b st
  | ClickDelete b => setDeleting (Some b) st
  | ChangeTitle v => setForm (fun f => Form.mk v (Form.author f)) st
  | ChangeAuthor v => setForm (fun f => Form.mk (Form.title f) v) st
  | CloseForm => setIsFormOpen false st
  | SubmitForm res => fst (submitForm res st)
  | CancelDelete => setDeleting None st
  | ConfirmDelete res => confirmDelete res st
  | ToastTimeout => toast_timeout st
  end.

(** An event and the render that follows: the effect on [totalPages] runs
    when [totalPages] is not what it was at the render before. *)
Definition react (ev : event) (st : State) : State :=
  let st' := handler ev st in
  if totalPages (shown st') =? totalPages (shown st) then st' else clampPage st'.

Fixpoint react_all (evs : list event) (st : State) : State :=
  match evs with
  | [] => st
  | ev :: evs' => react_all evs' (react ev st)
  end.

(** What the main area shows. *)
Definition content (app : Loader.t) : Content :=
  if Loader.loading app then Spinner
  else
    match Loader.error app with
    | Some e =>
        if truthy e then ErrorText e
        else if Z.of_nat (length (shown (Loader.ui app))) =? 0 then NoBooks
             else Grid (pageItems (shown (Loader.ui app)) (page (Loader.ui app)))
    | None =>
        if Z.of_nat (length (shown (Loader.ui app))) =? 0 then NoBooks
        else Grid (pageItems (shown (Loader.ui app)) (page (Loader.ui app)))
    end.

End Page.

(** [String(n)], what a template literal makes of an integer id. *)
Definition numberToString (n : Z) : string := pretty n.

(** [res.ok]: the status is in the range 200-299. *)
Definition status_ok (s : Z) : bool := (200 <=? s) && (s <=? 299).

(** The request as the server's router sees it: the JSON body is the payload;
    the id in the path is the number written out. *)
Definition on_the_wire (req : http_request) : request :=
  match req with
  | POST body => POST_books (Form.title body) (Form.author body)
  | PUT n body => PUT_book (numberToString n) (title body) (author body)
  | DELETE n => DELETE_book (numberToString n)
  end.

(** The response as [fetch] hands it to the client: [res.ok] from the status,
    and [res.json()] the record the server sent when it sent one. *)
Definition delivers {A : Type} (unpack : json -> option A) (sent : response)
    (got : Response A) : Prop :=
  ok got = status_ok (status sent) /\
  forall x, unpack (body sent) = Some x -> json_body got = Fulfilled x.

Definition as_book (x : json) : option Book :=
  match x with JBook b => Some b | _ => None end.

Definition as_books (x : json) : option (list Book) :=
  match x with JBooks bs => Some bs | _ => None end.

(** The clock readings of the creates of a run, in order. *)
Fixpoint post_stamps (trace : list (Z * request)) : list Z :=
  match trace with
  | [] => []
  | (now, POST_books _ _) :: trace' => now :: post_stamps trace'
  | _ :: trace' => post_stamps trace'
  end.

(** Ten records, for the examples of paging. *)
Definition sample_shelf : list Book :=
  map (fun n => mkBook n "Dune" "Frank Herbert") (seqZ 1 10).

(** Code units above 127 for the examples: NO-BREAK SPACE, and E with acute
    in upper and in lower case. *)
Definition nbsp : ascii := ascii_of_nat 160.
Definition E_acute : ascii := ascii_of_nat 201.
Definition e_acute : ascii := ascii_of_nat 233.

Example filtered_query_example : filtered codeUnitCompare [hobbit; orwell] " TOLkien " "id-desc" = [hobbit].
Proof. vm_compute. reflexivity. Qed.
Example filtered_default_sort_example : filtered codeUnitCompare [hobbit; orwell] "" "id-desc" = [orwell; hobbit].
Proof. vm_compute. reflexivity. Qed.
Example filtered_title_sort_example : filtered codeUnitCompare [hobbit; orwell] "" "title-asc" = [orwell; hobbit].
Proof. vm_compute. reflexivity. Qed.
Example filtered_author_sort_example : filtered codeUnitCompare [hobbit; orwell] "" "author-asc" = [orwell; hobbit].
Proof. vm_compute. reflexivity. Qed.
Example split_example : split "-" "title-asc" = ["title"; "asc"].
Proof. vm_compute. reflexivity. Qed.
Example casings_example : length (casings "tolkien") = 128%nat.
Proof. vm_compute. reflexivity. Qed.
Example trim_example : trim "  a b  " = "a b".
Proof. vm_compute. reflexivity. Qed.
Example put_book_example : fst (put_book decimalNumber "2" "x" "y" initial_books) = [hobbit; mkBook 2 "x" "y"].
Proof. vm_compute. reflexivity. Qed.
Example trim_no_break_space_example :
  trim (String nbsp (String nbsp EmptyString)) = EmptyString /\
  trim (String nbsp (String.append "Dune" (String nbsp " "))) = "Dune".
Proof. vm_compute. split; reflexivity. Qed.
Example toLowerCase_latin1_example :
  toLowerCase (String E_acute "COLE") = String e_acute "cole".
Proof. vm_compute. reflexivity. Qed.
Example submit_no_break_space_example :
  let st := setForm (fun _ => Form.mk (String nbsp "a") "Frank Herbert") sample_state in
  snd (submitForm (Rejected "Failed to fetch") st) = None /\
  FormErrors.title (formErrors (fst (submitForm (Rejected "Failed to fetch") st)))
  = Some "Title should be at least 2 chars".
Proof. vm_compute. split; reflexivity. Qed.
Example filtered_latin1_example :
  filtered codeUnitCompare [mkBook 3 (String E_acute "COLE") "Anne"; orwell]
           (String e_acute "cole") "id-desc"
  = [mkBook 3 (String E_acute "COLE") "Anne"] /\
  filtered codeUnitCompare [hobbit; orwell] (String nbsp EmptyString) "id-desc"
  = [orwell; hobbit].
Proof. vm_compute. split; reflexivity. Qed.

(** ** Facts about the list built-ins *)

Lemma findIndex_from_none {A : Type} (p : A -> bool) (l : list A) (i : Z) :
  0 <= i ->
  (findIndex_from p l i = -1 <-> forall x, x ∈ l -> p x = false).
Proof.
  revert i. induction l as [|y l IH]; intros i Hi; simpl.
  - split; [intros _ x Hx; inversion Hx | reflexivity].
  - destruct (p y) eqn:Hy.
    + split; [lia |]. intros H. specialize (H y (list_elem_of_here _ _)). congruence.
    + rewrite IH by lia. split.
      * intros H x Hx. apply elem_of_cons in Hx as [-> | Hx]; auto.
      * intros H x Hx. apply H. now apply list_elem_of_further.
Qed.

Lemma findIndex_from_some {A : Type} (p : A -> bool) (l : list A) (i : Z) :
  0 <= i ->
  findIndex_from p l i <> -1 ->
  exists (n : nat) (x : A),
    findIndex_from p l i = i + Z.of_nat n /\
    l !! n = Some x /\ p x = true /\
    forall (j : nat) (y : A), (j < n)%nat -> l !! j = Some y -> p y = false.
Proof.
  revert i. induction l as [|y l IH]; intros i Hi; simpl.
  - congruence.
  - destruct (p y) eqn:Hy.
    + intros _. exists 0%nat, y. repeat split; [lia | assumption | intros; lia].
    + intros Hne. destruct (IH (i + 1) ltac:(lia) Hne) as (n & x & Hidx & Hx & Hpx & Hbefore).
      exists (S n), x. repeat split; [lia | assumption | assumption |].
      intros [|j] z Hj Hz; simpl in Hz.
      * congruence.
      * apply (Hbefore j); [lia | assumption].
Qed.

Lemma elem_of_List_filter {A : Type} (p : A -> bool) (l : list A) (x : A) :
  x ∈ List.filter p l <-> x ∈ l /\ p x = true.
Proof. rewrite !list_elem_of_In. apply filter_In. Qed.

Lemma sublist_List_filter {A : Type} (p : A -> bool) (l : list A) :
  sublist (List.filter p l) l.
Proof.
  induction l as [|x l IH]; simpl.
  - constructor.
  - destruct (p x); now constructor.
Qed.

Lemma sublist_List_filter_greatest {A : Type} (p : A -> bool) (k l : list A) :
  sublist k l -> (forall x, x ∈ k -> p x = true) -> sublist k (List.filter p l).
Proof.
  induction 1 as [| x k l Hsub IH | x k l Hsub IH]; intros Hall; simpl.
  - constructor.
  - rewrite (Hall x (list_elem_of_here _ _)). constructor. apply IH.
    intros y Hy. apply Hall. now apply list_elem_of_further.
  - destruct (p x); [constructor |]; now apply IH.
Qed.

Lemma List_filter_none {A : Type} (p : A -> bool) (l : list A) :
  (forall x, x ∈ l -> p x = false) -> List.filter p l = [].
Proof.
  induction l as [|x l IH]; intros Hall; simpl; [reflexivity |].
  rewrite (Hall x (list_elem_of_here _ _)). apply IH.
  intros y Hy. apply Hall. now apply list_elem_of_further.
Qed.

(** ** The API service: the collection under the four operations *)

Section ServerFacts.

Variable Number : string -> option Z.


Lemma looseEq_Some (n : Z) (s : string) :
  looseEq Number n s = true <-> Number s = Some n.
Proof.
  unfold looseEq. destruct (Number s) as [m|].
  - rewrite Z.eqb_eq. split; [intros -> | intros [= ->]]; reflexivity.
  - split; discriminate.
Qed.

(** What [put_book] does when some record matches. *)
Lemma put_book_found (id_param t a : string) (books : list Book) (b : Book) :
  b ∈ books -> looseEq Number (id b) id_param = true ->
  exists (i : nat) (old : Book),
    books !! i = Some old /\
    Number id_param = Some (id old) /\
    (forall (j : nat) (y : Book),
        (j < i)%nat -> books !! j = Some y -> looseEq Number (id y) id_param = false) /\
    put_book Number id_param t a books =
      (<[i := mkBook (id old) t a]> books, mkResponse 200 (JBook (mkBook (id old) t a))).
Proof.
  intros Hin Hb. unfold put_book, findIndex.
  set (p := fun b0 : Book => looseEq Number (id b0) id_param).
  assert (Hne : findIndex_from p books 0 <> -1).
  { intros Hnone.
    pose proof (proj1 (findIndex_from_none p books 0 ltac:(lia)) Hnone b Hin) as Hpb.
    unfold p in Hpb. congruence. }
  destruct (findIndex_from_some p books 0 ltac:(lia) Hne)
    as (i & old & Hidx & Hold & Hp & Hbefore).
  exists i, old. unfold p in Hp. pose proof Hp as Hnum. apply looseEq_Some in Hnum.
  repeat split; try assumption.
  rewrite Hidx. replace (0 + Z.of_nat i) with (Z.of_nat i) by lia.
  destruct (Z.eqb_spec (Z.of_nat i) (-1)) as [Hbad | _]; [lia |]. simpl.
  rewrite Hnum. unfold index_json, res_json. rewrite Nat2Z.id.
  rewrite list_lookup_insert_eq; [reflexivity |].
  apply lookup_lt_Some in Hold. assumption.
Qed.

(** A URL parameter that is not an integer matches no record. *)
Lemma put_book_not_a_number (id_param t a : string) (books : list Book) :
  Number id_param = None ->
  put_book Number id_param t a books =
    (books, mkResponse 404 (JMessage "Book not found")).
Proof.
  intros Hnan. unfold put_book, findIndex.
  rewrite (proj2 (findIndex_from_none _ books 0 ltac:(lia))); [reflexivity |].
  intros b _. unfold looseEq. now rewrite Hnan.
Qed.

Lemma put_book_ids (id_param t a : string) (books : list Book) :
  ids (fst (put_book Number id_param t a books)) = ids books.
Proof.
  set (p := fun b : Book => looseEq Number (id b) id_param).
  destruct (Z.eq_dec (findIndex_from p books 0) (-1)) as [Hnone | Hsome].
  - unfold put_book, findIndex. fold p. rewrite Hnone. reflexivity.
  - destruct (findIndex_from_some p books 0 ltac:(lia) Hsome) as (n & b & _ & Hb & Hpb & _).
    apply list_elem_of_lookup_2 in Hb.
    destruct (put_book_found id_param t a books b Hb Hpb) as (i & old & Hold & _ & _ & ->).
    simpl. unfold ids. change (id <$> <[i:=mkBook (id old) t a]> books = id <$> books).
    rewrite list_fmap_insert. simpl. apply list_insert_id.
    rewrite list_lookup_fmap, Hold. reflexivity.
Qed.

Lemma delete_book_ids_sublist (id_param : string) (books : list Book) :
  sublist (ids (fst (delete_book Number id_param books))) (ids books).
Proof.
  simpl. unfold ids. change (sublist (id <$> List.filter (fun b => looseNe Number (id b) id_param) books) (id <$> books)).
  apply fmap_sublist, sublist_List_filter.
Qed.

Lemma handle_keeps_unique (now : Z) (req : request) (books : list Book) :
  match req with POST_books _ _ => now ∉ ids books | _ => True end ->
  NoDup (ids books) -> NoDup (ids (fst (handle Number now req books))).
Proof.
  intros Hfresh Hnd. destruct req as [| t a | i t a | i]; simpl handle.
  - exact Hnd.
  - simpl. unfold ids. rewrite map_app. simpl. apply NoDup_app.
    split; [exact Hnd |]. split; [| apply NoDup_singleton].
    intros x Hx Hx'. apply list_elem_of_singleton in Hx'. subst x. contradiction.
  - rewrite put_book_ids. exact Hnd.
  - eapply sublist_NoDup; [exact Hnd | apply delete_book_ids_sublist].
Qed.

Lemma run_app (t1 t2 : list (Z * request)) (books : list Book) :
  run Number (t1 ++ t2) books = run Number t2 (run Number t1 books).
Proof.
  revert books. induction t1 as [|[now req] t1 IH]; intros books; simpl; [reflexivity |].
  apply IH.
Qed.

Lemma reachable_run (trace : list (Z * request)) (books : list Book) :
  reachable Number books -> reachable Number (run Number trace books).
Proof.
  revert books. induction trace as [|[now req] trace IH]; intros books Hr; simpl.
  - exact Hr.
  - apply IH. now constructor.
Qed.

Lemma reachable_is_run (books : list Book) :
  reachable Number books <-> exists trace, books = run Number trace initial_books.
Proof.
  split.
  - induction 1 as [| books now req _ [trace ->]].
    + now exists [].
    + exists (trace ++ [(now, req)]). rewrite run_app. reflexivity.
  - intros [trace ->]. apply reachable_run. constructor.
Qed.

Lemma run_keeps_unique (trace : list (Z * request)) (books : list Book) :
  fresh_stamps Number trace books = true ->
  NoDup (ids books) -> NoDup (ids (run Number trace books)).
Proof.
  revert books. induction trace as [|[now req] trace IH]; intros books Hf Hnd; simpl.
  - exact Hnd.
  - simpl in Hf. apply andb_true_iff in Hf as [Hnow Hrest].
    apply IH; [exact Hrest |]. apply handle_keeps_unique; [| exact Hnd].
    destruct req; try exact I. now apply bool_decide_eq_true in Hnow.
Qed.

End ServerFacts.

Section ServerClaims.

Variable Number : string -> option Z.

(** C1 (as amended). From the initial two-book collection, after any run of
    list, create, update and delete requests in which every create reads a
    clock value that is not already a stored id, the ids of the collection
    are pairwise distinct. Update and delete never break uniqueness. *)
Theorem ids_unique_when_stamps_fresh (trace : list (Z * request)) :
  fresh_stamps Number trace initial_books = true ->
  reachable Number (run Number trace initial_books) /\
  NoDup (ids (run Number trace initial_books)).
Proof.
  intros Hfresh. split.
  - apply reachable_run. constructor.
  - apply run_keeps_unique; [exact Hfresh |].
    unfold ids, initial_books. simpl.
    repeat (apply NoDup_cons; split); try apply NoDup_nil_2;
      rewrite ?elem_of_cons, ?elem_of_nil; intuition lia.
Qed.

(** C2. When no stored record's id matches the id of the URL, update answers
    404 with the message [Book not found] and the collection is the one
    before the request. *)
Theorem update_missing_id_not_found (id_param t a : string) (books : list Book) :
  (forall b, b ∈ books -> looseEq Number (id b) id_param = false) ->
  put_book Number id_param t a books =
    (books, mkResponse 404 (JMessage "Book not found")).
Proof.
  intros Hnone. unfold put_book, findIndex.
  rewrite (proj2 (findIndex_from_none _ books 0 ltac:(lia)) Hnone).
  reflexivity.
Qed.

(** C3. When some stored record's id matches the id of the URL, update
    writes [{ id: Number(id), title, author }] at the index of the first
    such record, answers 200 with that record, and changes neither the
    length of the collection nor the record at any other index. *)
Theorem update_existing_id_in_place (id_param t a : string) (books : list Book) :
  (exists b, b ∈ books /\ looseEq Number (id b) id_param = true) ->
  exists (i : nat) (old : Book) (n : Z),
    let updated := mkBook n t a in
    let books' := fst (put_book Number id_param t a books) in
    Number id_param = Some n /\
    books !! i = Some old /\ looseEq Number (id old) id_param = true /\
    (forall (j : nat) (y : Book),
        (j < i)%nat -> books !! j = Some y -> looseEq Number (id y) id_param = false) /\
    put_book Number id_param t a books =
      (<[i := updated]> books, mkResponse 200 (JBook updated)) /\
    books' !! i = Some updated /\
    (forall j : nat, j <> i -> books' !! j = books !! j) /\
    length books' = length books.
Proof.
  intros (b & Hin & Hb).
  destruct (put_book_found Number id_param t a books b Hin Hb)
    as (i & old & Hold & Hnum & Hfirst & Hput).
  exists i, old, (id old). cbv zeta. rewrite Hput. simpl fst.
  repeat split; try assumption.
  - now apply looseEq_Some.
  - apply list_lookup_insert_eq. now apply lookup_lt_Some in Hold.
  - intros j Hj. now apply list_lookup_insert_ne.
  - apply length_insert.
Qed.

(** C4. Whatever the collection and the id, delete answers 200 with the
    message [Book deleted], and the collection that list then returns holds
    no record whose id matches the id of the URL. *)
Theorem delete_removes_every_match (id_param : string) (books : list Book) :
  let books' := fst (delete_book Number id_param books) in
  snd (delete_book Number id_param books) = mkResponse 200 (JMessage "Book deleted") /\
  snd (get_books books') = mkResponse 200 (JBooks books') /\
  fst (get_books books') = books' /\
  (forall b, b ∈ books' -> looseEq Number (id b) id_param = false) /\
  (forall n, Number id_param = Some n -> n ∉ ids books').
Proof.
  cbv zeta. simpl. repeat split.
  - intros b Hb. apply elem_of_List_filter in Hb as [_ Hb].
    unfold looseNe in Hb. now apply negb_true_iff in Hb.
  - intros n Hn Hin. unfold ids in Hin. apply list_elem_of_In, in_map_iff in Hin.
    destruct Hin as (b & Hid & Hb). apply list_elem_of_In, elem_of_List_filter in Hb.
    destruct Hb as [_ Hb]. unfold looseNe in Hb. apply negb_true_iff in Hb.
    subst n. apply looseEq_Some in Hn. congruence.
Qed.

(** C5. Create answers 201 with the record [{ id: Date.now(), title, author }];
    the list that follows returns the collection with that record as its
    last element. List returns the whole collection and leaves it as it is,
    and creates are listed after the earlier records, in the order made. *)
Theorem created_record_is_listed_last (now : Z) (t a : string) (books : list Book) :
  let created := mkBook now t a in
  let books' := fst (post_books now t a books) in
  snd (post_books now t a books) = mkResponse 201 (JBook created) /\
  get_books books' = (books', mkResponse 200 (JBooks (books ++ [created]))) /\
  last (books ++ [created]) = Some created /\
  (forall bs, get_books bs = (bs, mkResponse 200 (JBooks bs))) /\
  (forall posts : list (Z * (string * string)),
      run Number (map (fun p => (fst p, POST_books (fst (snd p)) (snd (snd p)))) posts) books
      = books ++ map (fun p => mkBook (fst p) (fst (snd p)) (snd (snd p))) posts).
Proof.
  cbv zeta. simpl. repeat split.
  - apply last_snoc.
  - intros posts. revert books.
    induction posts as [|[n [t' a']] posts IH]; intros books; simpl.
    + now rewrite app_nil_r.
    + rewrite IH. now rewrite <- app_assoc.
Qed.

(** C10. Delete leaves exactly the records that do not match, in the order
    they had: the result is a subsequence of the collection, its members are
    the members of the collection that do not match, and every subsequence of
    the collection made of records that do not match is a subsequence of it. *)
Theorem delete_keeps_survivors_in_order (id_param : string) (books : list Book) :
  let books' := fst (delete_book Number id_param books) in
  sublist books' books /\
  (forall b, b ∈ books' <-> b ∈ books /\ looseEq Number (id b) id_param = false) /\
  (forall l, sublist l books ->
             (forall b, b ∈ l -> looseEq Number (id b) id_param = false) ->
             sublist l books') /\
  (forall l1 b l2, books = l1 ++ b :: l2 ->
                   looseEq Number (id b) id_param = false ->
                   books' = fst (delete_book Number id_param l1) ++
                            b :: fst (delete_book Number id_param l2)).
Proof.
  cbv zeta. simpl. split; [| split; [| split]].
  - apply sublist_List_filter.
  - intros b. rewrite elem_of_List_filter. unfold looseNe.
    now rewrite negb_true_iff.
  - intros l Hsub Hall. apply sublist_List_filter_greatest; [exact Hsub |].
    intros b Hb. unfold looseNe. now rewrite (Hall b Hb).
  - intros l1 b l2 -> Hb. rewrite List.filter_app. simpl.
    unfold looseNe at 2. now rewrite Hb.
Qed.

End ServerClaims.

(** C1 (as stated) fails: two creates handled within the same millisecond
    store two records with one id. *)
Lemma same_millisecond_creates_collide :
  let trace := [ (1700000000000, POST_books "Dune" "Frank Herbert");
                 (1700000000000, POST_books "Emma" "Jane Austen") ] in
  let books := run decimalNumber trace initial_books in
  reachable decimalNumber books /\
  books !! 2%nat = Some (mkBook 1700000000000 "Dune" "Frank Herbert") /\
  books !! 3%nat = Some (mkBook 1700000000000 "Emma" "Jane Austen") /\
  ~ NoDup (ids books).
Proof.
  cbv zeta. split; [apply reachable_run; constructor |].
  split; [reflexivity |]. split; [reflexivity |].
  vm_compute. intros Hnd.
  apply NoDup_cons in Hnd as [_ Hnd]. apply NoDup_cons in Hnd as [_ Hnd].
  apply NoDup_cons in Hnd as [Hnotin _]. apply Hnotin. constructor.
Qed.

(** ** Facts about the string built-ins *)

Lemma trimEnd_blank (s : string) : blank (trimEnd s) = true -> trimEnd s = EmptyString.
Proof.
  induction s as [|c s IH]; simpl; [reflexivity |].
  destruct (trimEnd s) as [|d t] eqn:Ht.
  - destruct (isWhiteSpace c) eqn:Hc; [reflexivity |]. simpl. now rewrite Hc.
  - intros Hb. simpl in Hb. apply andb_true_iff in Hb as [_ Hb].
    specialize (IH Hb). discriminate.
Qed.

Lemma trimEnd_idempotent (s : string) : trimEnd (trimEnd s) = trimEnd s.
Proof.
  induction s as [|c s IH]; simpl; [reflexivity |].
  destruct (trimEnd s) as [|d t] eqn:Ht.
  - destruct (isWhiteSpace c) eqn:Hc; simpl; [reflexivity |]. now rewrite Hc.
  - change (trimEnd (String c (String d t)))
      with (match trimEnd (String d t) with
            | EmptyString => if isWhiteSpace c then EmptyString else String c EmptyString
            | u => String c u
            end).
    now rewrite IH.
Qed.

Lemma trimEnd_head (c : ascii) (s : string) :
  trimEnd (String c s) = EmptyString \/ exists t, trimEnd (String c s) = String c t.
Proof.
  simpl. destruct (trimEnd s); [destruct (isWhiteSpace c) |]; eauto.
Qed.

Lemma trimStart_head (s : string) :
  trimStart s = EmptyString \/
  exists c t, trimStart s = String c t /\ isWhiteSpace c = false.
Proof.
  induction s as [|c s IH]; simpl; [now left |].
  destruct (isWhiteSpace c) eqn:Hc; [exact IH | right; eauto].
Qed.

Lemma trimStart_trim (s : string) : trimStart (trim s) = trim s.
Proof.
  unfold trim. destruct (trimStart_head s) as [-> | (c & t & -> & Hc)]; [reflexivity |].
  destruct (trimEnd_head c t) as [-> | [u ->]]; [reflexivity |].
  simpl. now rewrite Hc.
Qed.

Lemma trim_idempotent (s : string) : trim (trim s) = trim s.
Proof.
  unfold trim at 1. rewrite trimStart_trim. unfold trim. apply trimEnd_idempotent.
Qed.

Lemma trim_blank (s : string) : blank (trim s) = true -> trim s = EmptyString.
Proof. apply trimEnd_blank. Qed.

Lemma casings_tolkien_lower (q : string) :
  q ∈ casings "tolkien" -> toLowerCase (trim q) = "tolkien".
Proof.
  intros Hq.
  assert (Hall : forallb (fun q => String.eqb (toLowerCase (trim q)) "tolkien")
                         (casings "tolkien") = true) by (vm_compute; reflexivity).
  rewrite forallb_forall in Hall. apply String.eqb_eq, Hall.
  now apply list_elem_of_In.
Qed.

Lemma sort_singleton {A : Type} (cmp : A -> A -> Z) (x : A) : sort cmp [x] = [x].
Proof. reflexivity. Qed.

(** [sort] commutes with a change of the records that [cmp] does not see. *)
Lemma sort_insert_map {A : Type} (cmp : A -> A -> Z) (g : A -> A) (x : A) (l : list A) :
  (forall a b, cmp (g a) (g b) = cmp a b) ->
  sort_insert cmp (g x) (map g l) = map g (sort_insert cmp x l).
Proof.
  intros Hg. induction l as [|y l IH]; simpl; [reflexivity |].
  rewrite Hg. destruct (cmp x y <? 0); simpl; [reflexivity |]. now rewrite IH.
Qed.

Lemma sort_map {A : Type} (cmp : A -> A -> Z) (g : A -> A) (l : list A) :
  (forall a b, cmp (g a) (g b) = cmp a b) ->
  sort cmp (map g l) = map g (sort cmp l).
Proof.
  intros Hg. unfold sort.
  change (@nil A) with (map g []) at 1. generalize (@nil A) as acc.
  induction l as [|x l IH]; intros acc; simpl; [reflexivity |].
  rewrite sort_insert_map by exact Hg. apply IH.
Qed.

Lemma sort_insert_Permutation {A : Type} (cmp : A -> A -> Z) (x : A) (l : list A) :
  sort_insert cmp x l ≡ₚ x :: l.
Proof.
  induction l as [|y l IH]; simpl; [reflexivity |].
  destruct (cmp x y <? 0); [reflexivity |].
  rewrite IH. apply Permutation_swap.
Qed.

Lemma sort_Permutation {A : Type} (cmp : A -> A -> Z) (l : list A) :
  sort cmp l ≡ₚ l.
Proof.
  unfold sort. rewrite <- (app_nil_r l) at 2. generalize (@nil A) as acc.
  induction l as [|x l IH]; intros acc; simpl; [reflexivity |].
  rewrite IH, sort_insert_Permutation. symmetry. apply Permutation_middle.
Qed.

(** With a consistent comparator [sort] yields a sorted array: no element is
    followed by one that [cmp] puts in front of it. *)
Section ConsistentComparator.

Context {A : Type} (cmp : A -> A -> Z).

Hypothesis cmp_flip : forall a b, cmp a b < 0 <-> 0 < cmp b a.
Hypothesis cmp_trans : forall a b c, cmp a b <= 0 -> cmp b c <= 0 -> cmp a c <= 0.

Lemma sort_insert_sorted (x : A) (l : list A) :
  StronglySorted (fun a b => cmp a b <= 0) l ->
  StronglySorted (fun a b => cmp a b <= 0) (sort_insert cmp x l).
Proof.
  induction l as [|y l IH]; intros Hs; simpl.
  - repeat constructor.
  - apply StronglySorted_cons in Hs as [Hy Hs].
    destruct (Z.ltb_spec (cmp x y) 0) as [Hlt | Hge].
    + apply StronglySorted_cons. split.
      * constructor; [lia |]. eapply Forall_impl; [exact Hy |].
        intros z Hz. simpl in Hz. apply (cmp_trans x y z); [lia | exact Hz].
      * apply StronglySorted_cons. now split.
    + apply StronglySorted_cons. split; [| now apply IH].
      rewrite sort_insert_Permutation. constructor; [| exact Hy].
      destruct (Z.le_gt_cases (cmp y x) 0) as [Hle | Hgt]; [exact Hle |].
      apply cmp_flip in Hgt. lia.
Qed.

Lemma sort_sorted (l : list A) :
  StronglySorted (fun a b => cmp a b <= 0) (sort cmp l).
Proof.
  unfold sort.
  assert (Hacc : StronglySorted (fun a b => cmp a b <= 0) (@nil A)) by constructor.
  revert Hacc. generalize (@nil A) as acc.
  induction l as [|x l IH]; intros acc Hacc; simpl; [exact Hacc |].
  apply IH, sort_insert_sorted, Hacc.
Qed.

(** In the sorted array an element never stands before one that [cmp] puts
    strictly in front of it. *)
Lemma sort_orders_every_pair (l l1 l2 l3 : list A) (x y : A) :
  sort cmp l = l1 ++ x :: l2 ++ y :: l3 -> ~ cmp y x < 0.
Proof.
  intros Hsplit Hlt. pose proof (sort_sorted l) as Hs. rewrite Hsplit in Hs.
  apply StronglySorted_app in Hs as (_ & _ & Hs).
  apply StronglySorted_cons in Hs as [Hx _].
  rewrite Forall_forall in Hx.
  assert (Hxy : cmp x y <= 0).
  { apply Hx. apply elem_of_app. right. apply list_elem_of_here. }
  apply cmp_flip in Hlt. lia.
Qed.

End ConsistentComparator.

(** ** The client: the mirror under the three mutations *)

Lemma await_json_failed {A : Type} (failure : string) (res : settled (Response A)) :
  request_failed res || body_unreadable res = true ->
  exists m, await_json failure res = Rejected m.
Proof.
  destruct res as [r | m]; simpl; [| eauto].
  destruct (ok r); simpl; [| eauto].
  destruct (json_body r) as [v | m]; [discriminate | eauto].
Qed.

Lemma await_ok_failed {A : Type} (failure : string) (res : settled (Response A)) :
  request_failed res = true -> exists m, await_ok failure res = Rejected m.
Proof.
  destruct res as [r | m]; simpl; [| eauto].
  intros ->. simpl. eauto.
Qed.

(** C6 (as amended). When a create, update or delete request fails ([fetch]
    rejects or the response is not ok; for create and update also when the
    body cannot be read), the mirror is the one before the call, an error
    toast is set (which the timer then clears) and the call throws. When it
    succeeds, create appends the
    record of the response and update replaces the records that have the id of
    the record of the response by it, whatever the payload was; delete removes
    the records whose id is the id asked for, whatever the body of the
    response. *)
Theorem mutation_patches_mirror_after_response (st : State) :
  (forall payload res,
      request_failed res || body_unreadable res = true ->
      exists m msg,
        createBook payload res st = (setToast (Some (mkToast error msg)) st, Rejected m) /\
        books (fst (createBook payload res st)) = books st /\
        toast (toast_timeout (fst (createBook payload res st))) = None) /\
  (forall payload res,
      request_failed res || body_unreadable res = true ->
      exists m msg,
        updateBook payload res st = (setToast (Some (mkToast error msg)) st, Rejected m) /\
        books (fst (updateBook payload res st)) = books st /\
        toast (toast_timeout (fst (updateBook payload res st))) = None) /\
  (forall id_param (res : settled (Response json)),
      request_failed res = true ->
      exists m msg,
        removeBook id_param res st = (setToast (Some (mkToast error msg)) st, Rejected m) /\
        books (fst (removeBook id_param res st)) = books st /\
        toast (toast_timeout (fst (removeBook id_param res st))) = None) /\
  (forall payload r created,
      ok r = true -> json_body r = Fulfilled created ->
      books (fst (createBook payload (Fulfilled r) st)) = books st ++ [created] /\
      snd (createBook payload (Fulfilled r) st) = Fulfilled created) /\
  (forall payload r updated,
      ok r = true -> json_body r = Fulfilled updated ->
      books (fst (updateBook payload (Fulfilled r) st))
      = map (fun b => if id b =? id updated then updated else b) (books st) /\
      snd (updateBook payload (Fulfilled r) st) = Fulfilled updated) /\
  (forall id_param (r : Response json),
      ok r = true ->
      books (fst (removeBook id_param (Fulfilled r) st))
      = List.filter (fun b => negb (id b =? id_param)) (books st)).
Proof.
  split; [| split; [| split; [| split; [| split]]]].
  - intros payload res Hfail. unfold createBook.
    destruct (await_json_failed "Failed to create book" res Hfail) as [m ->].
    exists m, (or_else m "Failed to add"). repeat split.
  - intros payload res Hfail. unfold updateBook.
    destruct (await_json_failed "Failed to update book" res Hfail) as [m ->].
    exists m, (or_else m "Failed to update"). repeat split.
  - intros id_param res Hfail. unfold removeBook.
    destruct (await_ok_failed "Failed to delete" res Hfail) as [m ->].
    exists m, (or_else m "Failed to delete"). repeat split.
  - intros payload r created Hok Hbody. unfold createBook. simpl.
    rewrite Hok, Hbody. split; reflexivity.
  - intros payload r updated Hok Hbody. unfold updateBook. simpl.
    rewrite Hok, Hbody. split; reflexivity.
  - intros id_param r Hok. unfold removeBook. simpl. rewrite Hok. reflexivity.
Qed.

(** C9. The form issues a request only when the trimmed title has at least 2
    characters and the trimmed author at least 3; the request is a POST, or a
    PUT for the book being edited, and carries the trimmed title and author,
    neither of which is blank (empty or made of white space only, the
    no-break space included). *)
Theorem submit_sends_only_valid_trimmed_fields
    (res : settled (Response Book)) (st : State) (req : http_request) :
  snd (submitForm res st) = Some req ->
  let t := trim (Form.title (form st)) in
  let a := trim (Form.author (form st)) in
  2 <= strlen t /\ 3 <= strlen a /\
  ((editingBook st = None /\ req = POST (Form.mk t a)) \/
   (exists editing, editingBook st = Some editing /\
                    req = PUT (id editing) (mkBook (id editing) t a))) /\
  blank t = false /\ blank a = false /\ trim t = t /\ trim a = a.
Proof.
  cbv zeta. unfold submitForm, validateForm.
  set (t := trim (Form.title (form st))). set (a := trim (Form.author (form st))).
  destruct (negb (truthy (Form.title (form st))) || (strlen t <? 2)) eqn:Ht;
    [destruct (negb (truthy (Form.author (form st))) || (strlen a <? 3));
     simpl; discriminate |].
  destruct (negb (truthy (Form.author (form st))) || (strlen a <? 3)) eqn:Ha;
    [simpl; discriminate |].
  apply orb_false_iff in Ht as [_ Ht]. apply orb_false_iff in Ha as [_ Ha].
  apply Z.ltb_ge in Ht, Ha. simpl.
  intros Hreq.
  assert (Hkind : (editingBook st = None /\ req = POST (Form.mk t a)) \/
                  (exists editing, editingBook st = Some editing /\
                                   req = PUT (id editing) (mkBook (id editing) t a))).
  { destruct (editingBook st) as [editing |] eqn:He.
    - right. exists editing. split; [reflexivity |].
      destruct (updateBook _ res _) as [st' [v | m]]; simpl in Hreq;
        unfold updateBook_request in Hreq; simpl in Hreq; subst t a; congruence.
    - left. split; [reflexivity |].
      destruct (createBook _ res _) as [st' [v | m]]; simpl in Hreq;
        unfold createBook_request in Hreq; subst t a; congruence. }
  assert (Hnb : forall s, 2 <= strlen (trim s) -> blank (trim s) = false).
  { intros s Hs. destruct (blank (trim s)) eqn:Hb; [| reflexivity].
    apply trim_blank in Hb. rewrite Hb in Hs. unfold strlen in Hs. simpl in Hs. lia. }
  subst t a. repeat split; try assumption.
  - apply Hnb. exact Ht.
  - apply Hnb. lia.
  - apply trim_idempotent.
  - apply trim_idempotent.
Qed.

Section ClientClaims.

Variable localeCompare : string -> string -> Z.

(** C7. Whatever the casing of the query [tolkien] and whatever the sort
    key, [filtered] on a mirror that holds The Hobbit by J.R.R. Tolkien and
    otherwise only records whose title and author do not contain [tolkien]
    in any casing is that one record. *)
Theorem filter_tolkien_any_casing
    (q sortBy : string) (hobbit_id : Z) (before after : list Book) :
  q ∈ casings "tolkien" ->
  (forall b, b ∈ before ++ after ->
             includes (toLowerCase (title b)) "tolkien" = false /\
             includes (toLowerCase (author b)) "tolkien" = false) ->
  let record := mkBook hobbit_id "The Hobbit" "J.R.R. Tolkien" in
  filtered localeCompare (before ++ record :: after) q sortBy = [record].
Proof.
  intros Hq Hothers record. unfold filtered.
  rewrite (casings_tolkien_lower q Hq). simpl truthy. cbv iota.
  rewrite List.filter_app. simpl List.filter at 2.
  replace (includes (toLowerCase (title record)) "tolkien"
           || includes (toLowerCase (author record)) "tolkien") with true
    by (vm_compute; reflexivity).
  rewrite !List_filter_none.
  - apply sort_singleton.
  - intros b Hb. destruct (Hothers b) as [-> ->]; [| reflexivity].
    apply elem_of_app. now right.
  - intros b Hb. destruct (Hothers b) as [-> ->]; [| reflexivity].
    apply elem_of_app. now left.
Qed.

(** C8. With the sort key [title-asc], and a collation that puts [1984]
    before [The Hobbit], the record titled 1984 comes before the record
    titled The Hobbit, whatever the authors, the ids and the order in the
    mirror. The comparator reads the titles only, and the sort commutes with
    any change of the authors. *)
Theorem title_sort_ignores_author (id1 id2 : Z) (author1 author2 : string) :
  localeCompare "1984" "The Hobbit" < 0 ->
  ~ localeCompare "The Hobbit" "1984" < 0 ->
  let first := mkBook id1 "1984" author1 in
  let second := mkBook id2 "The Hobbit" author2 in
  filtered localeCompare [second; first] "" "title-asc" = [first; second] /\
  filtered localeCompare [first; second] "" "title-asc" = [first; second] /\
  (forall a b : Book,
      compareBooks localeCompare (Some "title") (Some "asc") a b
      = localeCompare (title a) (title b)) /\
  (forall (rewrite_author : Book -> string) (mirror : list Book),
      let g := fun b => mkBook (id b) (title b) (rewrite_author b) in
      filtered localeCompare (map g mirror) "" "title-asc"
      = map g (filtered localeCompare mirror "" "title-asc")).
Proof.
  intros Hlt Hge first second. unfold filtered. simpl.
  repeat split.
  - unfold sort. simpl. unfold compareBooks at 1. simpl.
    destruct (Z.ltb_spec (localeCompare "1984" "The Hobbit") 0); [reflexivity | lia].
  - unfold sort. simpl. unfold compareBooks at 1. simpl.
    destruct (Z.ltb_spec (localeCompare "The Hobbit" "1984") 0); [lia | reflexivity].
  - intros rewrite_author mirror. apply sort_map. reflexivity.
Qed.

(** The same for a mirror of any size, when the collation is a consistent
    comparator: in the array sorted by [title-asc] no record titled The
    Hobbit stands before a record titled 1984, and the array holds the
    records of the mirror. *)
Lemma title_sort_orders_every_pair (mirror l1 l2 l3 : list Book) (x y : Book) :
  (forall a b, localeCompare a b < 0 <-> 0 < localeCompare b a) ->
  (forall a b c, localeCompare a b <= 0 -> localeCompare b c <= 0 -> localeCompare a c <= 0) ->
  localeCompare "1984" "The Hobbit" < 0 ->
  filtered localeCompare mirror "" "title-asc" ≡ₚ mirror /\
  (filtered localeCompare mirror "" "title-asc" = l1 ++ x :: l2 ++ y :: l3 ->
   ~ (title x = "The Hobbit" /\ title y = "1984")).
Proof.
  intros Hflip Htrans Hlt. unfold filtered. simpl. split.
  - apply sort_Permutation.
  - intros Hsplit [Hx Hy].
    apply (sort_orders_every_pair (compareBooks localeCompare (Some "title") (Some "asc")))
      in Hsplit.
    + apply Hsplit. unfold compareBooks. simpl. now rewrite Hx, Hy.
    + intros a b. unfold compareBooks. simpl. apply Hflip.
    + intros a b c. unfold compareBooks. simpl. apply Htrans.
Qed.

End ClientClaims.

(** C6 (as stated) fails for delete: with one and the same successful
    response, the mirror after [removeBook] depends on the id asked for, and it
    is the same mirror whatever the response carries; no function of the
    mirror and the response gives it. *)
Lemma delete_patch_comes_from_requested_id :
  let st := mkState [hobbit; orwell] "" "id-desc" 1 false None None None
                    (Form.mk "" "") (FormErrors.mk None None) in
  let res := Fulfilled (mkRes true (Fulfilled (JMessage "Book deleted"))) in
  let silent : settled (Response json) := Fulfilled (mkRes true (Rejected "Unexpected end of JSON input")) in
  books (fst (removeBook 1 res st)) = [orwell] /\
  books (fst (removeBook 2 res st)) = [hobbit] /\
  books (fst (removeBook 1 silent st)) = [orwell] /\
  ~ (exists patch : list Book -> json -> list Book,
        forall (id_param : Z) (answer : json),
          books (fst (removeBook id_param (Fulfilled (mkRes true (Fulfilled answer))) st))
          = patch (books st) answer).
Proof.
  cbv zeta. repeat split.
  intros [patch Hpatch].
  pose proof (Hpatch 1 (JMessage "Book deleted")) as H1.
  pose proof (Hpatch 2 (JMessage "Book deleted")) as H2.
  rewrite <- H2 in H1. vm_compute in H1. discriminate H1.
Qed.

(** ** The theorems at concrete inputs *)

Lemma ids_unique_when_stamps_fresh_witness :
  fresh_stamps decimalNumber sample_trace initial_books = true /\
  NoDup (ids (run decimalNumber sample_trace initial_books)).
Proof.
  split; [vm_compute; reflexivity |].
  apply (ids_unique_when_stamps_fresh decimalNumber sample_trace).
  vm_compute; reflexivity.
Defined.

Lemma update_missing_id_not_found_witness :
  put_book decimalNumber "7" "Dune" "Frank Herbert" initial_books =
    (initial_books, mkResponse 404 (JMessage "Book not found")).
Proof.
  apply (update_missing_id_not_found decimalNumber "7" "Dune" "Frank Herbert" initial_books).
  intros b Hb. unfold initial_books in Hb.
  repeat (apply elem_of_cons in Hb as [-> | Hb]; [vm_compute; reflexivity |]).
  inversion Hb.
Defined.

Lemma update_existing_id_in_place_witness :
  orwell ∈ initial_books /\ looseEq decimalNumber (id orwell) "2" = true /\
  exists (i : nat) (old : Book) (n : Z),
    decimalNumber "2" = Some n /\
    initial_books !! i = Some old /\
    put_book decimalNumber "2" "Animal Farm" "George Orwell" initial_books =
      (<[i := mkBook n "Animal Farm" "George Orwell"]> initial_books,
       mkResponse 200 (JBook (mkBook n "Animal Farm" "George Orwell"))).
Proof.
  assert (Hin : orwell ∈ initial_books).
  { unfold initial_books. apply list_elem_of_further, list_elem_of_here. }
  assert (Hmatch : looseEq decimalNumber (id orwell) "2" = true)
    by (vm_compute; reflexivity).
  split; [exact Hin |]. split; [exact Hmatch |].
  destruct (update_existing_id_in_place decimalNumber "2" "Animal Farm" "George Orwell"
              initial_books (ex_intro _ orwell (conj Hin Hmatch)))
    as (i & old & n & Hn & Hold & _ & _ & Hput & _).
  exists i, old, n. repeat split; assumption.
Defined.

Lemma delete_keeps_survivors_in_order_witness :
  sublist (fst (delete_book decimalNumber "1" initial_books)) initial_books /\
  fst (delete_book decimalNumber "1" initial_books) = [orwell].
Proof.
  split; [| vm_compute; reflexivity].
  exact (proj1 (delete_keeps_survivors_in_order decimalNumber "1" initial_books)).
Defined.

Lemma mutation_patches_mirror_after_response_witness :
  request_failed (Fulfilled (mkRes false (Fulfilled hobbit)))
  || body_unreadable (Fulfilled (mkRes false (Fulfilled hobbit))) = true /\
  books (fst (createBook (Form.mk "Dune" "Frank Herbert")
                         (Fulfilled (mkRes false (Fulfilled hobbit))) sample_state))
  = [hobbit; orwell] /\
  books (fst (createBook (Form.mk "Dune" "Frank Herbert")
                         (Fulfilled (mkRes true (Fulfilled (mkBook 1700000000000 "DUNE" "F. Herbert"))))
                         sample_state))
  = [hobbit; orwell; mkBook 1700000000000 "DUNE" "F. Herbert"].
Proof.
  destruct (mutation_patches_mirror_after_response sample_state)
    as (Hcreate & _ & _ & Hcreated & _).
  split; [reflexivity |]. split.
  - destruct (Hcreate (Form.mk "Dune" "Frank Herbert")
                      (Fulfilled (mkRes false (Fulfilled hobbit))) eq_refl)
      as (m & msg & _ & Hbooks & _).
    exact Hbooks.
  - exact (proj1 (Hcreated (Form.mk "Dune" "Frank Herbert")
                           (mkRes true (Fulfilled (mkBook 1700000000000 "DUNE" "F. Herbert")))
                           (mkBook 1700000000000 "DUNE" "F. Herbert") eq_refl eq_refl)).
Defined.

Lemma submit_sends_only_valid_trimmed_fields_witness :
  snd (submitForm (Fulfilled (mkRes true (Fulfilled (mkBook 1700000000000 "Dune" "Frank Herbert"))))
                  sample_state)
  = Some (POST (Form.mk "Dune" "Frank Herbert")) /\
  2 <= strlen (trim "  Dune ") /\ 3 <= strlen (trim "Frank Herbert  ").
Proof.
  split; [vm_compute; reflexivity |].
  destruct (submit_sends_only_valid_trimmed_fields
              (Fulfilled (mkRes true (Fulfilled (mkBook 1700000000000 "Dune" "Frank Herbert"))))
              sample_state (POST (Form.mk "Dune" "Frank Herbert")))
    as (Ht & Ha & _).
  - vm_compute; reflexivity.
  - split; [exact Ht | exact Ha].
Defined.

Lemma filter_tolkien_any_casing_witness :
  "TOLkien" ∈ casings "tolkien" /\
  filtered codeUnitCompare [orwell; hobbit; mkBook 3 "Emma" "Jane Austen"] "TOLkien" "title-asc"
  = [hobbit].
Proof.
  assert (Hq : "TOLkien" ∈ casings "tolkien").
  { apply (bool_decide_eq_true_1 ("TOLkien" ∈ casings "tolkien")). vm_compute; reflexivity. }
  split; [exact Hq |].
  apply (filter_tolkien_any_casing codeUnitCompare "TOLkien" "title-asc" 1
           [orwell] [mkBook 3 "Emma" "Jane Austen"] Hq).
  intros b Hb. simpl in Hb.
  repeat (apply elem_of_cons in Hb as [-> | Hb]; [split; vm_compute; reflexivity |]).
  inversion Hb.
Defined.

Lemma title_sort_ignores_author_witness :
  codeUnitCompare "1984" "The Hobbit" < 0 /\
  filtered codeUnitCompare [hobbit; orwell] "" "title-asc" = [orwell; hobbit].
Proof.
  split; [vm_compute; reflexivity |].
  refine (proj1 (title_sort_ignores_author codeUnitCompare 2 1 "George Orwell" "J.R.R. Tolkien" _ _)).
  - vm_compute; reflexivity.
  - vm_compute. discriminate.
Defined.

(** ** More on the API service: how the operations compose *)

Lemma List_filter_all {A : Type} (p : A -> bool) (l : list A) :
  (forall x, x ∈ l -> p x = true) -> List.filter p l = l.
Proof.
  induction l as [|x l IH]; intros Hall; simpl; [reflexivity |].
  rewrite (Hall x (list_elem_of_here _ _)). f_equal. apply IH.
  intros y Hy. apply Hall. now apply list_elem_of_further.
Qed.

Lemma List_filter_idempotent {A : Type} (p : A -> bool) (l : list A) :
  List.filter p (List.filter p l) = List.filter p l.
Proof.
  apply List_filter_all. intros x Hx. now apply elem_of_List_filter in Hx.
Qed.

Section ServerComposition.

Variable Number : string -> option Z.

(** [put_book] is decided by the first index whose record matches. *)
Lemma put_book_at (id_param t a : string) (books : list Book) (i : nat) (old : Book) :
  books !! i = Some old ->
  looseEq Number (id old) id_param = true ->
  (forall (j : nat) (y : Book),
      (j < i)%nat -> books !! j = Some y -> looseEq Number (id y) id_param = false) ->
  put_book Number id_param t a books =
    (<[i := mkBook (id old) t a]> books, mkResponse 200 (JBook (mkBook (id old) t a))).
Proof.
  intros Hold Hmatch Hfirst.
  destruct (put_book_found Number id_param t a books old
              (list_elem_of_lookup_2 _ _ _ Hold) Hmatch)
    as (i' & old' & Hold' & Hnum' & Hfirst' & Hput).
  assert (Hi : i' = i).
  { destruct (Nat.lt_trichotomy i' i) as [Hlt | [Heq | Hgt]]; [| exact Heq |].
    - specialize (Hfirst i' old' Hlt Hold').
      apply looseEq_Some in Hnum'. congruence.
    - specialize (Hfirst' i old Hgt Hold). congruence. }
  subst i'. rewrite Hold in Hold'. injection Hold' as <-. exact Hput.
Qed.

(** X1. Update never changes which ids are stored, nor their order, nor the
    number of records, whatever the id of the URL and the body. *)
Theorem update_never_changes_ids (id_param t a : string) (books : list Book) :
  ids (fst (put_book Number id_param t a books)) = ids books /\
  length (fst (put_book Number id_param t a books)) = length books.
Proof.
  pose proof (put_book_ids Number id_param t a books) as Hids.
  split; [exact Hids |].
  apply (f_equal (@length Z)) in Hids. unfold ids in Hids.
  now rewrite !length_map in Hids.
Qed.

(** X2. Two updates of one id in a row leave what the second alone leaves,
    and the second answers what it would have answered alone: the last write
    wins. *)
Theorem update_twice_last_wins (id_param t1 a1 t2 a2 : string) (books : list Book) :
  put_book Number id_param t2 a2 (fst (put_book Number id_param t1 a1 books))
  = put_book Number id_param t2 a2 books.
Proof.
  set (p := fun b : Book => looseEq Number (id b) id_param).
  destruct (Z.eq_dec (findIndex_from p books 0) (-1)) as [Hnone | Hsome].
  - assert (Hput : put_book Number id_param t1 a1 books
                   = (books, mkResponse 404 (JMessage "Book not found"))).
    { unfold put_book, findIndex. fold p. rewrite Hnone. reflexivity. }
    rewrite Hput. reflexivity.
  - destruct (findIndex_from_some p books 0 ltac:(lia) Hsome)
      as (i & old & _ & Hold & Hmatch & Hfirst).
    rewrite (put_book_at id_param t1 a1 books i old Hold Hmatch Hfirst). simpl fst.
    rewrite (put_book_at id_param t2 a2 books i old Hold Hmatch Hfirst).
    pose proof (lookup_lt_Some _ _ _ Hold) as Hlt.
    rewrite (put_book_at id_param t2 a2 (<[i:=mkBook (id old) t1 a1]> books) i
               (mkBook (id old) t1 a1)).
    + simpl. now rewrite list_insert_insert_eq.
    + now apply list_lookup_insert_eq.
    + exact Hmatch.
    + intros j y Hj Hy. rewrite list_lookup_insert_ne in Hy by lia.
      now apply (Hfirst j).
Qed.

(** X3. Deleting the id a create has just stored gives what the delete gives
    on the collection before the create; when that id was not stored before,
    it gives back that collection. *)
Theorem create_then_delete (now : Z) (t a id_param : string) (books : list Book) :
  Number id_param = Some now ->
  fst (delete_book Number id_param (fst (post_books now t a books)))
  = fst (delete_book Number id_param books) /\
  (now ∉ ids books ->
   fst (delete_book Number id_param (fst (post_books now t a books))) = books).
Proof.
  intros Hnum.
  assert (Heq : fst (delete_book Number id_param (fst (post_books now t a books)))
                = fst (delete_book Number id_param books)).
  { simpl. rewrite List.filter_app. simpl.
    replace (looseNe Number now id_param) with false; [now rewrite app_nil_r |].
    symmetry. unfold looseNe. apply negb_false_iff. now apply looseEq_Some. }
  split; [exact Heq |].
  intros Hfresh. rewrite Heq. simpl. apply List_filter_all.
  intros b Hb. unfold looseNe. apply negb_true_iff.
  destruct (looseEq Number (id b) id_param) eqn:E; [| reflexivity].
  apply looseEq_Some in E. exfalso. apply Hfresh.
  assert (id b = now) as <- by congruence.
  unfold ids. apply list_elem_of_In, in_map. now apply list_elem_of_In.
Qed.

(** X4. Delete with an id that no record has (in particular one that is not
    a number) changes nothing and still answers 200 [Book deleted]. *)
Theorem delete_unknown_id_changes_nothing (id_param : string) (books : list Book) :
  (forall b, b ∈ books -> looseEq Number (id b) id_param = false) ->
  delete_book Number id_param books = (books, mkResponse 200 (JMessage "Book deleted")).
Proof.
  intros Hnone. unfold delete_book, res_json. f_equal.
  apply List_filter_all. intros b Hb. unfold looseNe. now rewrite (Hnone b Hb).
Qed.

(** X5. Delete is idempotent, and once an id is deleted an update of it
    answers 404 and changes nothing. *)
Theorem delete_then_same_id (id_param t a : string) (books : list Book) :
  let books' := fst (delete_book Number id_param books) in
  delete_book Number id_param books' = (books', mkResponse 200 (JMessage "Book deleted")) /\
  put_book Number id_param t a books' = (books', mkResponse 404 (JMessage "Book not found")).
Proof.
  cbv zeta.
  assert (Hgone : forall b, b ∈ fst (delete_book Number id_param books) ->
                            looseEq Number (id b) id_param = false).
  { intros b Hb. simpl in Hb. apply elem_of_List_filter in Hb as [_ Hb].
    unfold looseNe in Hb. now apply negb_true_iff in Hb. }
  split.
  - unfold delete_book at 1. unfold res_json. f_equal.
    apply List_filter_all. intros b Hb. unfold looseNe. now rewrite (Hgone b Hb).
  - unfold put_book, findIndex.
    rewrite (proj2 (findIndex_from_none _ _ 0 ltac:(lia)) Hgone). reflexivity.
Qed.

Lemma run_ids_sublist (trace : list (Z * request)) (books : list Book) :
  sublist (ids (run Number trace books)) (ids books ++ post_stamps trace).
Proof.
  revert books. induction trace as [|[now req] trace IH]; intros books; simpl.
  - now rewrite app_nil_r.
  - destruct req as [| t a | i t a | i]; simpl handle.
    + apply IH.
    + specialize (IH (fst (post_books now t a books))).
      simpl in IH. unfold ids in IH. rewrite map_app in IH. simpl in IH.
      rewrite <- app_assoc in IH. exact IH.
    + specialize (IH (fst (put_book Number i t a books))).
      now rewrite put_book_ids in IH.
    + etransitivity; [apply IH |].
      apply sublist_app; [apply delete_book_ids_sublist | reflexivity].
Qed.

(** X6. In every state of a run from the initial collection the ids stored
    are, in order, some of 1, 2 and the clock readings of the creates of the
    run: no operation reorders records or stores an id that no create read. *)
Theorem stored_ids_come_from_creates (trace : list (Z * request)) :
  sublist (ids (run Number trace initial_books)) (1 :: 2 :: post_stamps trace) /\
  (length (run Number trace initial_books) <= 2 + length (post_stamps trace))%nat.
Proof.
  pose proof (run_ids_sublist trace initial_books) as Hsub.
  split; [exact Hsub |].
  apply sublist_length in Hsub. unfold ids in Hsub.
  rewrite length_map in Hsub. simpl in Hsub. exact Hsub.
Qed.

End ServerComposition.

(** ** Paging *)

Lemma ceil_div_bounds (n : Z) :
  8 * (ceil_div n 8 - 1) < n <= 8 * ceil_div n 8.
Proof.
  unfold ceil_div.
  pose proof (Z.div_mod (- n) 8 ltac:(lia)) as Hdm.
  pose proof (Z.mod_pos_bound (- n) 8 ltac:(lia)) as Hm.
  lia.
Qed.

Lemma totalPages_bounds (l : list Book) :
  1 <= totalPages l /\
  Z.of_nat (length l) <= 8 * totalPages l /\
  (l <> [] -> 8 * (totalPages l - 1) < Z.of_nat (length l)).
Proof.
  unfold totalPages, pageSize.
  pose proof (ceil_div_bounds (Z.of_nat (length l))) as Hc.
  repeat split; try lia.
  intros Hne. destruct l as [|b l]; [congruence |]. simpl length in *. lia.
Qed.

Lemma pageItems_take_drop (l : list Book) (p : Z) :
  1 <= p -> pageItems l p = take 8 (drop (8 * (Z.to_nat p - 1)) l).
Proof.
  intros Hp. unfold pageItems, slice, pageSize.
  destruct (Z.ltb_spec ((p - 1) * 8) 0) as [Hneg | _]; [lia |].
  destruct (Z.ltb_spec (p * 8) 0) as [Hneg | _]; [lia |].
  assert (Hk : Z.to_nat ((p - 1) * 8) = (8 * (Z.to_nat p - 1))%nat) by lia.
  destruct (Z.le_gt_cases (Z.of_nat (length l)) ((p - 1) * 8)) as [Hshort | Hlong].
  - rewrite (Z.min_r ((p - 1) * 8)) by lia. rewrite (Z.min_r (p * 8)) by lia.
    rewrite Z.sub_diag. change (Z.to_nat 0) with 0%nat. rewrite take_0.
    rewrite (drop_ge l (8 * (Z.to_nat p - 1))) by lia. reflexivity.
  - rewrite (Z.min_l ((p - 1) * 8)) by lia. rewrite Hk.
    destruct (Z.le_gt_cases (p * 8) (Z.of_nat (length l))) as [Hfull | Hpart].
    + rewrite Z.min_l by lia. f_equal. lia.
    + rewrite Z.min_r by lia.
      rewrite !take_ge; [reflexivity | |]; rewrite length_drop; lia.
Qed.

Lemma chunks_concat (n : nat) (l : list Book) :
  (length l <= 8 * n)%nat ->
  concat (map (fun k : nat => take 8 (drop (8 * k) l)) (seq 0 n)) = l.
Proof.
  revert l. induction n as [|n IH]; intros l Hlen.
  - destruct l; [reflexivity | simpl in Hlen; lia].
  - rewrite <- cons_seq, <- fmap_S_seq. simpl concat.
    change (map ?f (S <$> ?s)) with (map f (map S s)). rewrite map_map.
    rewrite (map_ext _ (fun k : nat => take 8 (drop (8 * k) (drop 8 l)))).
    + rewrite IH; [apply take_drop | rewrite length_drop; lia].
    + intros k. rewrite drop_drop. do 2 f_equal. lia.
Qed.

(** X7. The pages 1 to [totalPages] show every record of the filtered list
    exactly once, in order: put end to end they are that list. *)
Theorem pages_cover_the_list (l : list Book) :
  concat (map (pageItems l) (seqZ 1 (totalPages l))) = l.
Proof.
  destruct (totalPages_bounds l) as (Hone & Hlen & _).
  unfold seqZ. change (map ?f (?g <$> ?s)) with (map f (map g s)). rewrite map_map.
  rewrite (map_ext _ (fun k : nat => take 8 (drop (8 * k) l))).
  - apply chunks_concat. lia.
  - intros k. rewrite pageItems_take_drop by lia. do 2 f_equal. lia.
Qed.

(** X8. A page never holds more than [pageSize] records, whatever the page
    number; a page after the last one, and page 0, are empty. *)
Theorem page_never_exceeds_page_size (l : list Book) (p : Z) :
  Z.of_nat (length (pageItems l p)) <= pageSize /\
  (totalPages l < p \/ p = 0 -> pageItems l p = []).
Proof.
  unfold pageItems, slice, pageSize. split.
  - rewrite length_take, length_drop.
    destruct (Z.ltb_spec ((p - 1) * 8) 0), (Z.ltb_spec (p * 8) 0); lia.
  - intros Hout. destruct (totalPages_bounds l) as (Hone & Hlen & _).
    apply length_zero_iff_nil. rewrite length_take, length_drop.
    destruct (Z.ltb_spec ((p - 1) * 8) 0), (Z.ltb_spec (p * 8) 0); lia.
Qed.

(** X9. On a page between 1 and [totalPages] of a list that is not empty, the
    footer's [from] and [to] are the positions, counted from 1, of the first
    and the last record shown: the page is the records [from] to [to], and
    there is at least one. *)
Theorem footer_range_is_the_page (l : list Book) (p : Z) :
  l <> [] -> 1 <= p <= totalPages l ->
  1 <= showingFrom l p <= showingTo l p /\
  showingTo l p <= Z.of_nat (length l) /\
  pageItems l p
  = take (Z.to_nat (showingTo l p - showingFrom l p + 1))
         (drop (Z.to_nat (showingFrom l p - 1)) l) /\
  Z.of_nat (length (pageItems l p)) = showingTo l p - showingFrom l p + 1.
Proof.
  intros Hne [Hp1 Hp2]. destruct (totalPages_bounds l) as (_ & _ & Hlast).
  specialize (Hlast Hne).
  assert (Hfrom : showingFrom l p = (p - 1) * 8 + 1)
    by (unfold showingFrom, pageSize; lia).
  assert (Hto : showingTo l p = Z.min (Z.of_nat (length l)) (p * 8))
    by reflexivity.
  assert (Hitems : pageItems l p
                   = take (Z.to_nat (showingTo l p - showingFrom l p + 1))
                          (drop (Z.to_nat (showingFrom l p - 1)) l)).
  { unfold pageItems, slice, pageSize.
    destruct (Z.ltb_spec ((p - 1) * 8) 0) as [Hneg | _]; [lia |].
    destruct (Z.ltb_spec (p * 8) 0) as [Hneg | _]; [lia |].
    rewrite Hfrom, Hto. f_equal; [| f_equal]; lia. }
  repeat split; try lia.
  - exact Hitems.
  - rewrite Hitems, length_take, length_drop. lia.
Qed.

(** ** The page number, the first fetch and the forms *)

Lemma submitForm_page (res : settled (Response Book)) (st : State) :
  page (fst (submitForm res st)) = page st.
Proof.
  unfold submitForm, validateForm, updateBook, createBook.
  repeat case_match; simplify_eq/=; reflexivity.
Qed.

Lemma confirmDelete_page (res : settled (Response json)) (st : State) :
  page (confirmDelete res st) = page st.
Proof.
  unfold confirmDelete, removeBook.
  repeat case_match; simplify_eq/=; reflexivity.
Qed.

Section PageFacts.

Variable localeCompare : string -> string -> Z.

Lemma handler_page (ev : event) (st : State) :
  1 <= page st <= totalPages (shown localeCompare st) ->
  1 <= page (handler localeCompare ev st) /\
  (page (handler localeCompare ev st) <= totalPages (shown localeCompare st) \/
   page (handler localeCompare ev st) = 1).
Proof.
  intros Hin.
  destruct ev; simpl handler;
    rewrite ?submitForm_page, ?confirmDelete_page; simpl; lia.
Qed.

Lemma clampPage_in_range (st : State) :
  1 <= page st ->
  1 <= page (clampPage localeCompare st)
  <= totalPages (shown localeCompare (clampPage localeCompare st)).
Proof.
  intros Hpos. unfold clampPage.
  destruct (totalPages_bounds (shown localeCompare st)) as (Hone & _).
  destruct (Z.gtb_spec (page st) (totalPages (shown localeCompare st))) as [Hgt | Hle].
  - change (shown localeCompare (setPage _ st)) with (shown localeCompare st).
    simpl page. lia.
  - lia.
Qed.

Lemma react_in_range (ev : event) (st : State) :
  1 <= page st <= totalPages (shown localeCompare st) ->
  1 <= page (react localeCompare ev st)
  <= totalPages (shown localeCompare (react localeCompare ev st)).
Proof.
  intros Hin. unfold react.
  destruct (handler_page ev st Hin) as [Hpos Hle].
  destruct (totalPages_bounds (shown localeCompare (handler localeCompare ev st)))
    as (Hone & _).
  destruct (Z.eqb_spec (totalPages (shown localeCompare (handler localeCompare ev st)))
                       (totalPages (shown localeCompare st))) as [Hsame | Hchanged].
  - lia.
  - now apply clampPage_in_range.
Qed.

(** X10. Whatever the user does and however the requests settle, the page
    number stays between 1 and [totalPages]: prev and next stop at the ends,
    and when the list shrinks under the current page the effect brings the
    page back to the last one. *)
Theorem page_stays_in_range (evs : list event) (st : State) :
  1 <= page st <= totalPages (shown localeCompare st) ->
  1 <= page (react_all localeCompare evs st)
  <= totalPages (shown localeCompare (react_all localeCompare evs st)).
Proof.
  revert st. induction evs as [|ev evs IH]; intros st Hin; simpl.
  - exact Hin.
  - apply IH, react_in_range, Hin.
Qed.

(** X11. The first fetch. While the component is mounted: a fetch that fails
    leaves the mirror as it was, stops the spinner and puts a message that is
    never empty in the main area, where it stays whatever the user does next;
    a fetch that succeeds makes the mirror the array received and shows its
    page, or the empty notice when nothing passes the filter. After unmount
    the settled fetch changes neither mirror nor error. *)
Theorem first_fetch_outcomes (app : Loader.t) (res : settled (Response (list Book))) :
  (request_failed res || body_unreadable res = true ->
   exists e,
     load true res app = Loader.mk (Loader.ui app) false (Some e) /\
     truthy e = true /\
     forall evs,
       content localeCompare
               (Loader.mk (react_all localeCompare evs (Loader.ui app)) false (Some e))
       = ErrorText e) /\
  (forall r data,
      res = Fulfilled r -> ok r = true -> json_body r = Fulfilled data ->
      let ui' := setBooks (fun _ => data) (Loader.ui app) in
      load true res app = Loader.mk ui' false None /\
      books ui' = data /\
      content localeCompare (load true res app)
      = if Z.of_nat (length (shown localeCompare ui')) =? 0 then NoBooks
        else Grid (pageItems (shown localeCompare ui') (page ui'))) /\
  load false res app = Loader.mk (Loader.ui app) true None /\
  content localeCompare (load false res app) = Spinner.
Proof.
  split; [| split; [| split]].
  - intros Hfail. unfold load.
    destruct (await_json_failed "Failed to fetch books" res Hfail) as [m ->].
    exists (or_else m "Unknown error"). split; [reflexivity |].
    assert (Ht : truthy (or_else m "Unknown error") = true) by (destruct m; reflexivity).
    split; [exact Ht |].
    intros evs. unfold content. simpl. now rewrite Ht.
  - intros r data -> Hok Hbody. cbv zeta. unfold load. simpl.
    rewrite Hok, Hbody. simpl. repeat split.
  - unfold load. destruct (await_json _ res); reflexivity.
  - unfold load. destruct (await_json _ res); reflexivity.
Qed.

End PageFacts.

(** X12. Submitting flags the title exactly when its trimmed length is under
    2 and the author exactly when its trimmed length is under 3; no request
    is issued exactly when one of them is flagged, and then the mirror, the
    toast, the draft and the open form are as they were. *)
Theorem submit_rejects_exactly_short_fields (res : settled (Response Book)) (st : State) :
  let st' := fst (submitForm res st) in
  let short_title := strlen (trim (Form.title (form st))) <? 2 in
  let short_author := strlen (trim (Form.author (form st))) <? 3 in
  FormErrors.title (formErrors st')
  = (if short_title then Some "Title should be at least 2 chars" else None) /\
  FormErrors.author (formErrors st')
  = (if short_author then Some "Author should be at least 3 chars" else None) /\
  (snd (submitForm res st) = None <-> short_title || short_author = true) /\
  (snd (submitForm res st) = None ->
   books st' = books st /\ toast st' = toast st /\
   form st' = form st /\ isFormOpen st' = isFormOpen st /\
   editingBook st' = editingBook st).
Proof.
  cbv zeta.
  assert (Hfalsy : forall s n, 0 < n ->
            negb (truthy s) || (strlen (trim s) <? n) = (strlen (trim s) <? n)).
  { intros s n Hn. destruct s as [|c s]; [| reflexivity]. simpl.
    symmetry. apply Z.ltb_lt. exact Hn. }
  unfold submitForm, validateForm.
  rewrite (Hfalsy (Form.title (form st)) 2), (Hfalsy (Form.author (form st)) 3) by lia.
  destruct (strlen (trim (Form.title (form st))) <? 2);
    destruct (strlen (trim (Form.author (form st))) <? 3); simpl;
    try (repeat split; (reflexivity || discriminate || tauto)).
  unfold updateBook, createBook.
  repeat case_match; simplify_eq/=; repeat split; (reflexivity || discriminate).
Qed.

(** X13. A valid draft whose request fails leaves the form open with the
    draft in it and the mirror as it was, under an error toast; one whose
    request succeeds closes the form, and the mirror has the record of the
    response appended (create) or put in place of the records with its id
    (edit). *)
Theorem submit_outcomes (res : settled (Response Book)) (st : State) :
  2 <= strlen (trim (Form.title (form st))) ->
  3 <= strlen (trim (Form.author (form st))) ->
  let st' := fst (submitForm res st) in
  form st' = form st /\ editingBook st' = editingBook st /\
  (request_failed res || body_unreadable res = true ->
   isFormOpen st' = isFormOpen st /\ books st' = books st /\
   exists msg, toast st' = Some (mkToast error msg)) /\
  (forall r saved,
      res = Fulfilled r -> ok r = true -> json_body r = Fulfilled saved ->
      isFormOpen st' = false /\
      books st' = match editingBook st with
                  | Some _ => map (fun b => if id b =? id saved then saved else b) (books st)
                  | None => books st ++ [saved]
                  end /\
      exists msg, toast st' = Some (mkToast success msg)).
Proof.
  intros Ht Ha. cbv zeta.
  assert (Hfalsy : forall s n, n <= strlen (trim s) -> 0 < n ->
            negb (truthy s) || (strlen (trim s) <? n) = false).
  { intros s n Hs Hn. apply orb_false_iff. split; [| apply Z.ltb_ge; exact Hs].
    destruct s; [| reflexivity]. unfold strlen in Hs. simpl in Hs. lia. }
  unfold submitForm, validateForm.
  rewrite (Hfalsy _ 2 Ht), (Hfalsy _ 3 Ha) by lia. simpl.
  split; [| split; [| split]].
  - unfold updateBook, createBook. repeat case_match; simplify_eq/=; reflexivity.
  - unfold updateBook, createBook. repeat case_match; simplify_eq/=; congruence.
  - intros Hfail.
    destruct (await_json_failed "Failed to update book" res Hfail) as [m1 Hm1].
    destruct (await_json_failed "Failed to create book" res Hfail) as [m2 Hm2].
    unfold updateBook, createBook. rewrite Hm1, Hm2.
    destruct (editingBook st); simpl; eauto.
  - intros r saved -> Hok Hbody.
    unfold updateBook, createBook. simpl. rewrite Hok, Hbody. simpl.
    destruct (editingBook st); simpl; eauto.
Qed.

(** X14. Confirming a delete: when the request fails the dialog stays open on
    the same book and the mirror is as it was, under an error toast; when it
    succeeds the dialog closes and the mirror holds no record with the id of
    that book. With no dialog open nothing happens. *)
Theorem confirm_delete_outcomes (res : settled (Response json)) (st : State) :
  (deleting st = None -> confirmDelete res st = st) /\
  (forall d, deleting st = Some d ->
     (request_failed res = true ->
      deleting (confirmDelete res st) = Some d /\
      books (confirmDelete res st) = books st /\
      exists msg, toast (confirmDelete res st) = Some (mkToast error msg)) /\
     (request_failed res = false ->
      deleting (confirmDelete res st) = None /\
      books (confirmDelete res st)
      = List.filter (fun b => negb (id b =? id d)) (books st) /\
      (forall b, b ∈ books (confirmDelete res st) -> id b <> id d))).
Proof.
  split.
  - intros Hnone. unfold confirmDelete. now rewrite Hnone.
  - intros d Hd. unfold confirmDelete. rewrite Hd. split.
    + intros Hfail. unfold removeBook.
      destruct (await_ok_failed "Failed to delete" res Hfail) as [m ->].
      simpl. rewrite Hd. eauto.
    + intros Hok. unfold removeBook.
      destruct res as [r | m]; simpl in Hok; [| discriminate].
      simpl. rewrite Hok. simpl. repeat split.
      intros b Hb. apply elem_of_List_filter in Hb as [_ Hb].
      apply negb_true_iff, Z.eqb_neq in Hb. exact Hb.
Qed.

(** X15. The edit form opened on a book and submitted as it is sends a PUT
    to the id of that book with its title and author trimmed, provided these
    are long enough; the create form submitted as it opens sends nothing and
    flags both fields. *)
Theorem untouched_forms (res : settled (Response Book)) (book : Book) (st : State) :
  (2 <= strlen (trim (title book)) -> 3 <= strlen (trim (author book)) ->
   snd (submitForm res (openEdit book st))
   = Some (PUT (id book) (mkBook (id book) (trim (title book)) (trim (author book))))) /\
  snd (submitForm res (openCreate st)) = None /\
  formErrors (fst (submitForm res (openCreate st)))
  = FormErrors.mk (Some "Title should be at least 2 chars")
                  (Some "Author should be at least 3 chars") /\
  books (fst (submitForm res (openCreate st))) = books st.
Proof.
  split; [| repeat split].
  intros Ht Ha. unfold submitForm, validateForm, openEdit. simpl.
  assert (Hfalsy : forall s n, n <= strlen (trim s) -> 0 < n ->
            negb (truthy s) || (strlen (trim s) <? n) = false).
  { intros s n Hs Hn. apply orb_false_iff. split; [| apply Z.ltb_ge; exact Hs].
    destruct s; [| reflexivity]. unfold strlen in Hs. simpl in Hs. lia. }
  rewrite (Hfalsy _ 2 Ht), (Hfalsy _ 3 Ha) by lia. simpl.
  unfold updateBook. repeat case_match; simplify_eq/=; reflexivity.
Qed.

(** ** What the search box and the sort menu show *)

Lemma startsWith_spec (s q : string) :
  startsWith s q = true <-> exists post, s = String.append q post.
Proof.
  revert s. induction q as [|d q IH]; intros s; simpl.
  - split; [intros _; now exists s | intros _; destruct s; reflexivity].
  - destruct s as [|c s]; simpl.
    + split; [discriminate | intros [post Hpost]; discriminate].
    + rewrite andb_true_iff, IH, Ascii.eqb_eq. split.
      * intros [-> [post ->]]. now exists post.
      * intros [post [= -> ->]]. split; [reflexivity | now exists post].
Qed.

Lemma includes_spec (s q : string) :
  includes s q = true <->
  exists pre post, s = String.append pre (String.append q post).
Proof.
  induction s as [|c s IH].
  - change (includes EmptyString q) with (startsWith EmptyString q || false).
    rewrite orb_false_r, startsWith_spec. split.
    + intros [post Hpost]. now exists EmptyString, post.
    + intros (pre & post & Hs). destruct pre; [now exists post | discriminate].
  - change (includes (String c s) q) with (startsWith (String c s) q || includes s q).
    rewrite orb_true_iff, startsWith_spec, IH. split.
    + intros [[post Hpost] | (pre & post & ->)].
      * now exists EmptyString, post.
      * now exists (String c pre), post.
    + intros (pre & post & Hs). destruct pre as [|c' pre]; simpl in Hs.
      * left. now exists post.
      * right. injection Hs as -> ->. now exists pre, post.
Qed.

Lemma trim_of_blank (s : string) : blank s = true -> trim s = EmptyString.
Proof.
  intros Hblank. unfold trim.
  assert (Hstart : trimStart s = EmptyString).
  { induction s as [|c s IH]; simpl in *; [reflexivity |].
    apply andb_true_iff in Hblank as [-> Hs]. now apply IH. }
  now rewrite Hstart.
Qed.

Lemma sort_ext {A : Type} (cmp cmp' : A -> A -> Z) (l : list A) :
  (forall a b, cmp a b = cmp' a b) -> sort cmp l = sort cmp' l.
Proof.
  intros Hext. unfold sort. generalize (@nil A) as acc.
  induction l as [|x l IH]; intros acc; simpl; [reflexivity |].
  rewrite IH. f_equal. clear IH.
  induction acc as [|y acc IHacc]; simpl; [reflexivity |].
  now rewrite Hext, IHacc.
Qed.

Lemma StronglySorted_weaken {A : Type} (R R' : A -> A -> Prop) (l : list A) :
  (forall a b, R a b -> R' a b) -> StronglySorted R l -> StronglySorted R' l.
Proof.
  intros Himpl. induction 1 as [| x l Hs IH Hx]; constructor; [exact IH |].
  eapply Forall_impl; [exact Hx | auto].
Qed.

Section ShownFacts.

Variable localeCompare : string -> string -> Z.

(** X16. The list shown holds exactly the records of the mirror whose title
    or author, in lower case, has the trimmed lower-case query somewhere inside
    it, each as often as in the mirror; the sort key changes the order only,
    and a blank query hides nothing. *)
Theorem shown_records_are_the_matches (mirror : list Book) (query sortBy : string) :
  let q := toLowerCase (trim query) in
  let inside (s : string) :=
    exists pre post, toLowerCase s = String.append pre (String.append q post) in
  filtered localeCompare mirror query sortBy
  ≡ₚ List.filter (fun b => includes (toLowerCase (title b)) q
                           || includes (toLowerCase (author b)) q) mirror /\
  (forall b, b ∈ filtered localeCompare mirror query sortBy <->
             b ∈ mirror /\ (inside (title b) \/ inside (author b))) /\
  (forall sortBy', filtered localeCompare mirror query sortBy
                   ≡ₚ filtered localeCompare mirror query sortBy') /\
  (blank query = true -> filtered localeCompare mirror query sortBy ≡ₚ mirror).
Proof.
  cbv zeta.
  set (q := toLowerCase (trim query)).
  set (p := fun b => includes (toLowerCase (title b)) q
                     || includes (toLowerCase (author b)) q).
  assert (Hshown : forall s, filtered localeCompare mirror query s ≡ₚ List.filter p mirror).
  { intros s. unfold filtered. fold q. rewrite sort_Permutation.
    destruct q eqn:Hq; simpl truthy; cbv iota; [| reflexivity].
    rewrite List_filter_all; [reflexivity |].
    intros b _. unfold p. destruct (toLowerCase (title b)); reflexivity. }
  split; [apply Hshown |]. split; [| split].
  - intros b. rewrite (Hshown sortBy), elem_of_List_filter. unfold p.
    now rewrite orb_true_iff, !includes_spec.
  - intros s'. now rewrite !Hshown.
  - intros Hblank. rewrite Hshown. rewrite List_filter_all; [reflexivity |].
    intros b _. unfold p, q.
    assert (Htrim : trim query = EmptyString) by now apply trim_of_blank.
    rewrite Htrim. simpl. destruct (toLowerCase (title b)); reflexivity.
Qed.

(** X17. Sorting by id: when the part of the sort key before the dash is
    neither [title] nor [author], the list shown is in ascending order of id
    when the part after the dash is [asc], and in descending order of id
    otherwise. *)
Theorem id_sort_orders_by_id (mirror : list Book) (query sortBy : string) :
  is_string (split "-" sortBy !! 0%nat) "title" = false ->
  is_string (split "-" sortBy !! 0%nat) "author" = false ->
  if is_string (split "-" sortBy !! 1%nat) "asc"
  then StronglySorted (fun a b => id a <= id b) (filtered localeCompare mirror query sortBy)
  else StronglySorted (fun a b => id b <= id a) (filtered localeCompare mirror query sortBy).
Proof.
  intros Htitle Hauthor. unfold filtered.
  set (arr := if truthy _ then _ else mirror). clearbody arr.
  destruct (is_string (split "-" sortBy !! 1%nat) "asc") eqn:Hdir.
  - rewrite (sort_ext _ (fun a b => id a - id b)).
    + eapply StronglySorted_weaken; [| apply sort_sorted]; simpl; intros; lia.
    + intros a b. unfold compareBooks. now rewrite Htitle, Hauthor, Hdir.
  - rewrite (sort_ext _ (fun a b => id b - id a)).
    + eapply StronglySorted_weaken; [| apply sort_sorted]; simpl; intros; lia.
    + intros a b. unfold compareBooks. now rewrite Htitle, Hauthor, Hdir.
Qed.

(** X18. Sorting by text, with a collation that is a consistent comparator:
    under [title-asc] no record is followed by one whose title the collation
    puts strictly before its own, under [title-desc] by none whose title it
    puts strictly after; the same for [author-asc] and [author-desc]. *)
Theorem text_sort_orders_by_collation (mirror : list Book) (query : string) :
  (forall a b, localeCompare a b < 0 <-> 0 < localeCompare b a) ->
  (forall a b c, localeCompare a b <= 0 -> localeCompare b c <= 0 ->
                 localeCompare a c <= 0) ->
  StronglySorted (fun a b => localeCompare (title a) (title b) <= 0)
                 (filtered localeCompare mirror query "title-asc") /\
  StronglySorted (fun a b => localeCompare (title b) (title a) <= 0)
                 (filtered localeCompare mirror query "title-desc") /\
  StronglySorted (fun a b => localeCompare (author a) (author b) <= 0)
                 (filtered localeCompare mirror query "author-asc") /\
  StronglySorted (fun a b => localeCompare (author b) (author a) <= 0)
                 (filtered localeCompare mirror query "author-desc").
Proof.
  intros Hflip Htrans. unfold filtered.
  set (arr := if truthy _ then _ else mirror). clearbody arr. simpl.
  repeat split.
  - apply (sort_sorted (compareBooks localeCompare (Some "title") (Some "asc")));
      unfold compareBooks; simpl; intros; [apply Hflip | eapply Htrans; eassumption].
  - apply (sort_sorted (compareBooks localeCompare (Some "title") (Some "desc")));
      unfold compareBooks; simpl; intros; [apply Hflip | eapply Htrans; eassumption].
  - apply (sort_sorted (compareBooks localeCompare (Some "author") (Some "asc")));
      unfold compareBooks; simpl; intros; [apply Hflip | eapply Htrans; eassumption].
  - apply (sort_sorted (compareBooks localeCompare (Some "author") (Some "desc")));
      unfold compareBooks; simpl; intros; [apply Hflip | eapply Htrans; eassumption].
Qed.

End ShownFacts.

(** ** The search box ignores the case of the query *)

Lemma lowerChar_lowerChar (c : ascii) : lowerChar (lowerChar c) = lowerChar c.
Proof. destruct c as [[] [] [] [] [] [] [] []]; reflexivity. Qed.

Lemma lowerChar_upperChar (c : ascii) : lowerChar (upperChar c) = lowerChar c.
Proof. destruct c as [[] [] [] [] [] [] [] []]; reflexivity. Qed.

Lemma isWhiteSpace_lowerChar (c : ascii) : isWhiteSpace (lowerChar c) = isWhiteSpace c.
Proof. destruct c as [[] [] [] [] [] [] [] []]; reflexivity. Qed.

Lemma lowerChar_same_case (c : ascii) :
  Ascii.eqb (lowerChar c) (upperChar c) = true -> lowerChar c = c.
Proof. destruct c as [[] [] [] [] [] [] [] []]; (reflexivity || discriminate). Qed.

Lemma toLowerCase_casing (q c : string) :
  c ∈ casings q -> toLowerCase c = toLowerCase q.
Proof.
  revert c. induction q as [|ch q IH]; intros c Hc; simpl in Hc.
  - apply list_elem_of_singleton in Hc. now subst c.
  - destruct (Ascii.eqb (lowerChar ch) (upperChar ch)) eqn:Hsame.
    + apply list_elem_of_In, in_map_iff in Hc as (r & <- & Hr).
      simpl. f_equal. apply IH. now apply list_elem_of_In.
    + apply elem_of_app in Hc as [Hc | Hc];
        apply list_elem_of_In, in_map_iff in Hc as (r & <- & Hr); simpl;
        rewrite ?lowerChar_lowerChar, ?lowerChar_upperChar; f_equal;
        apply IH; now apply list_elem_of_In.
Qed.

Lemma toLowerCase_trimStart (s : string) :
  toLowerCase (trimStart s) = trimStart (toLowerCase s).
Proof.
  induction s as [|c s IH]; simpl; [reflexivity |].
  rewrite isWhiteSpace_lowerChar. destruct (isWhiteSpace c); [exact IH | reflexivity].
Qed.

Lemma toLowerCase_trimEnd (s : string) :
  toLowerCase (trimEnd s) = trimEnd (toLowerCase s).
Proof.
  induction s as [|c s IH]; simpl; [reflexivity |].
  rewrite <- IH, isWhiteSpace_lowerChar.
  destruct (trimEnd s) as [|d t]; simpl; [destruct (isWhiteSpace c) |]; reflexivity.
Qed.

Lemma toLowerCase_trim (s : string) : toLowerCase (trim s) = trim (toLowerCase s).
Proof. unfold trim. now rewrite toLowerCase_trimEnd, toLowerCase_trimStart. Qed.

Section SearchCase.

Variable localeCompare : string -> string -> Z.

(** X19. The search ignores the case of the query: two queries with the same
    lower case show the same list; so does a query written in any mix of the
    two cases of its letters, for the letters that [toLowerCase] folds one to
    one (A-Z and the Latin-1 capitals). *)
Theorem search_ignores_query_case (mirror : list Book) (query written sortBy : string) :
  written ∈ casings query \/ toLowerCase written = toLowerCase query ->
  filtered localeCompare mirror written sortBy
  = filtered localeCompare mirror query sortBy.
Proof.
  intros Hw.
  assert (Hlow : toLowerCase written = toLowerCase query).
  { destruct Hw as [Hw | Hw]; [now apply toLowerCase_casing | exact Hw]. }
  unfold filtered. now rewrite !toLowerCase_trim, Hlow.
Qed.

End SearchCase.

(** ** The mirror and the collection of the server *)

Lemma map_replace_unique (l : list Book) (i : nat) (old u : Book) :
  NoDup (ids l) -> l !! i = Some old ->
  map (fun b => if id b =? id old then u else b) l = <[i := u]> l.
Proof.
  revert i. induction l as [|x l IH]; intros i Hnd Hi; [discriminate |].
  unfold ids in Hnd. simpl in Hnd. apply NoDup_cons in Hnd as [Hx Hnd].
  destruct i as [|i]; simpl in Hi.
  - injection Hi as ->. simpl. rewrite Z.eqb_refl. f_equal.
    rewrite <- (map_id l) at 2. apply map_ext_in. intros b Hb.
    destruct (Z.eqb_spec (id b) (id old)) as [Heq | _]; [| reflexivity].
    exfalso. apply Hx. rewrite <- Heq. apply list_elem_of_In, in_map, Hb.
  - simpl. destruct (Z.eqb_spec (id x) (id old)) as [Heq | _].
    + exfalso. apply Hx. rewrite Heq.
      apply list_elem_of_In, in_map, list_elem_of_In.
      now apply list_elem_of_lookup_2 in Hi.
    + f_equal. now apply IH.
Qed.

Section Sync.

Variable Number : string -> option Z.

(** X20. When the mirror equals the collection of the server, it equals it
    again after a create whose response is delivered; and the first fetch,
    delivered, makes the mirror the collection. *)
Theorem create_keeps_mirror_in_sync
    (now : Z) (payload : Form.t) (st : State) (collection : list Book)
    (r : Response Book) (app : Loader.t) (listing : Response (list Book)) :
  books st = collection ->
  delivers as_book
    (snd (handle Number now (on_the_wire (createBook_request payload)) collection)) r ->
  delivers as_books (snd (handle Number now GET_books collection)) listing ->
  books (fst (createBook payload (Fulfilled r) st))
  = fst (handle Number now (on_the_wire (createBook_request payload)) collection) /\
  books (Loader.ui (load true (Fulfilled listing) app)) = collection.
Proof.
  intros Hsync [Hok Hbody] [Hlok Hlbody]. simpl in *.
  specialize (Hbody _ eq_refl). specialize (Hlbody _ eq_refl). split.
  - unfold createBook. simpl. rewrite Hok, Hbody. simpl. now rewrite Hsync.
  - unfold load. simpl. rewrite Hlok, Hlbody. reflexivity.
Qed.

(** X21. When the mirror equals the collection of the server and the id
    written in the URL reads back as the same number, the mirror equals the
    collection again after a delete whose response is delivered. *)
Theorem delete_keeps_mirror_in_sync
    (now n : Z) (st : State) (collection : list Book) (r : Response json) :
  books st = collection ->
  Number (numberToString n) = Some n ->
  delivers Some (snd (handle Number now (on_the_wire (removeBook_request n)) collection)) r ->
  books (fst (removeBook n (Fulfilled r) st))
  = fst (handle Number now (on_the_wire (removeBook_request n)) collection).
Proof.
  intros Hsync Hnum [Hok _]. simpl in *.
  unfold removeBook. simpl. rewrite Hok. simpl. rewrite Hsync.
  apply List.filter_ext. intros b. unfold looseNe, looseEq. now rewrite Hnum.
Qed.

(** X22. When the mirror equals the collection of the server and the ids in
    it are pairwise distinct, the mirror equals the collection again after an
    update whose response is delivered, whether the server found the id or
    answered 404. *)
Theorem update_keeps_mirror_in_sync
    (now : Z) (payload : Book) (st : State) (collection : list Book)
    (r : Response Book) :
  books st = collection ->
  NoDup (ids collection) ->
  delivers as_book
    (snd (handle Number now (on_the_wire (updateBook_request payload)) collection)) r ->
  books (fst (updateBook payload (Fulfilled r) st))
  = fst (handle Number now (on_the_wire (updateBook_request payload)) collection).
Proof.
  intros Hsync Hnd Hdel. simpl in *.
  set (s := numberToString (id payload)) in *.
  set (p := fun b : Book => looseEq Number (id b) s).
  destruct (Z.eq_dec (findIndex_from p collection 0) (-1)) as [Hnone | Hsome].
  - assert (Hput : put_book Number s (title payload) (author payload) collection
                   = (collection, mkResponse 404 (JMessage "Book not found"))).
    { unfold put_book, findIndex. fold p. rewrite Hnone. reflexivity. }
    rewrite Hput in *. destruct Hdel as [Hok _]. simpl in Hok.
    unfold updateBook. simpl. rewrite Hok. simpl. exact Hsync.
  - destruct (findIndex_from_some p collection 0 ltac:(lia) Hsome)
      as (i & old & _ & Hold & Hmatch & _).
    destruct (put_book_found Number s (title payload) (author payload) collection old
                (list_elem_of_lookup_2 _ _ _ Hold) Hmatch)
      as (i' & old' & Hold' & Hnum' & _ & Hput).
    rewrite Hput in *. destruct Hdel as [Hok Hbody]. simpl in Hok, Hbody.
    specialize (Hbody _ eq_refl).
    unfold updateBook. simpl. rewrite Hok, Hbody. simpl. rewrite Hsync.
    now apply map_replace_unique.
Qed.

End Sync.

(** ** The example collation is a consistent comparator *)

Lemma codeUnitCompare_flip (a b : string) :
  codeUnitCompare a b < 0 <-> 0 < codeUnitCompare b a.
Proof.
  revert b. induction a as [|c a IH]; intros [|d b]; simpl; try lia.
  destruct (Z.ltb_spec (Z.of_nat (nat_of_ascii c)) (Z.of_nat (nat_of_ascii d)));
    destruct (Z.ltb_spec (Z.of_nat (nat_of_ascii d)) (Z.of_nat (nat_of_ascii c)));
    try lia.
  apply IH.
Qed.

Lemma codeUnitCompare_trans (a b c : string) :
  codeUnitCompare a b <= 0 -> codeUnitCompare b c <= 0 -> codeUnitCompare a c <= 0.
Proof.
  revert b c. induction a as [|x a IH]; intros [|y b] [|z c]; simpl; try lia.
  destruct (Z.ltb_spec (Z.of_nat (nat_of_ascii x)) (Z.of_nat (nat_of_ascii y)));
    destruct (Z.ltb_spec (Z.of_nat (nat_of_ascii y)) (Z.of_nat (nat_of_ascii x)));
    destruct (Z.ltb_spec (Z.of_nat (nat_of_ascii y)) (Z.of_nat (nat_of_ascii z)));
    destruct (Z.ltb_spec (Z.of_nat (nat_of_ascii z)) (Z.of_nat (nat_of_ascii y)));
    destruct (Z.ltb_spec (Z.of_nat (nat_of_ascii x)) (Z.of_nat (nat_of_ascii z)));
    destruct (Z.ltb_spec (Z.of_nat (nat_of_ascii z)) (Z.of_nat (nat_of_ascii x)));
    try lia.
  apply IH.
Qed.

(** ** The further theorems at concrete inputs *)

Lemma create_then_delete_witness :
  decimalNumber "1700000000000" = Some 1700000000000 /\
  fst (delete_book decimalNumber "1700000000000"
         (fst (post_books 1700000000000 "Dune" "Frank Herbert" initial_books)))
  = initial_books.
Proof.
  assert (Hnum : decimalNumber "1700000000000" = Some 1700000000000)
    by (vm_compute; reflexivity).
  split; [exact Hnum |].
  apply (create_then_delete decimalNumber 1700000000000 "Dune" "Frank Herbert"
           "1700000000000" initial_books Hnum).
  vm_compute. intros Hin.
  repeat (apply elem_of_cons in Hin as [Hin | Hin]; [discriminate |]).
  inversion Hin.
Defined.

Lemma delete_unknown_id_changes_nothing_witness :
  delete_book decimalNumber "seven" initial_books
  = (initial_books, mkResponse 200 (JMessage "Book deleted")).
Proof.
  apply (delete_unknown_id_changes_nothing decimalNumber "seven" initial_books).
  intros b Hb. unfold initial_books in Hb.
  repeat (apply elem_of_cons in Hb as [-> | Hb]; [vm_compute; reflexivity |]).
  inversion Hb.
Defined.

Lemma footer_range_is_the_page_witness :
  totalPages sample_shelf = 2 /\
  showingFrom sample_shelf 2 = 9 /\ showingTo sample_shelf 2 = 10 /\
  Z.of_nat (length (pageItems sample_shelf 2))
  = showingTo sample_shelf 2 - showingFrom sample_shelf 2 + 1.
Proof.
  split; [vm_compute; reflexivity |].
  split; [vm_compute; reflexivity |].
  split; [vm_compute; reflexivity |].
  refine (proj2 (proj2 (proj2 (footer_range_is_the_page sample_shelf 2 _ _)))).
  - vm_compute. discriminate.
  - vm_compute. split; discriminate.
Defined.

Lemma page_stays_in_range_witness :
  let st := mkState sample_shelf "" "id-desc" 2 false None
                    (Some (mkBook 1 "Dune" "Frank Herbert")) None
                    emptyForm (FormErrors.mk None None) in
  let evs := [ ConfirmDelete (Fulfilled (mkRes true (Fulfilled (JMessage "Book deleted"))));
               ClickDelete (mkBook 2 "Dune" "Frank Herbert");
               ConfirmDelete (Fulfilled (mkRes true (Fulfilled (JMessage "Book deleted"))));
               ClickNext ] in
  page st = 2 /\
  1 <= page (react_all codeUnitCompare evs st)
  <= totalPages (shown codeUnitCompare (react_all codeUnitCompare evs st)).
Proof.
  cbv zeta. split; [reflexivity |].
  apply (page_stays_in_range codeUnitCompare).
  vm_compute. split; discriminate.
Defined.

Lemma first_fetch_outcomes_witness :
  content codeUnitCompare
          (load true (Fulfilled (mkRes true (Fulfilled [hobbit; orwell]))) initial_app)
  = Grid [orwell; hobbit] /\
  exists e, load true (Rejected "") initial_app
            = Loader.mk initial_state false (Some e) /\ truthy e = true.
Proof.
  destruct (first_fetch_outcomes codeUnitCompare initial_app
              (Fulfilled (mkRes true (Fulfilled [hobbit; orwell]))))
    as (_ & Hgood & _).
  destruct (Hgood _ _ eq_refl eq_refl eq_refl) as (_ & _ & Hcontent).
  split; [rewrite Hcontent; vm_compute; reflexivity |].
  destruct (first_fetch_outcomes codeUnitCompare initial_app (Rejected ""))
    as (Hbad & _).
  destruct (Hbad eq_refl) as (e & Hload & He & _).
  exists e. split; [exact Hload | exact He].
Defined.

Lemma submit_outcomes_witness :
  2 <= strlen (trim (Form.title (form sample_state))) /\
  3 <= strlen (trim (Form.author (form sample_state))) /\
  isFormOpen (fst (submitForm (Rejected "Failed to fetch") sample_state)) = true /\
  books (fst (submitForm (Rejected "Failed to fetch") sample_state)) = [hobbit; orwell].
Proof.
  assert (Ht : 2 <= strlen (trim (Form.title (form sample_state))))
    by (vm_compute; discriminate).
  assert (Ha : 3 <= strlen (trim (Form.author (form sample_state))))
    by (vm_compute; discriminate).
  split; [exact Ht |]. split; [exact Ha |].
  destruct (submit_outcomes (Rejected "Failed to fetch") sample_state Ht Ha)
    as (_ & _ & Hfail & _).
  destruct (Hfail eq_refl) as (Hopen & Hbooks & _).
  split; [exact Hopen | exact Hbooks].
Defined.

Lemma confirm_delete_outcomes_witness :
  let st := setDeleting (Some hobbit) sample_state in
  books (confirmDelete (Fulfilled (mkRes true (Fulfilled (JMessage "Book deleted")))) st)
  = [orwell] /\
  deleting (confirmDelete (Fulfilled (mkRes false (Fulfilled (JMessage "Book deleted")))) st)
  = Some hobbit.
Proof.
  cbv zeta. split.
  - destruct (proj2 (confirm_delete_outcomes
                       (Fulfilled (mkRes true (Fulfilled (JMessage "Book deleted"))))
                       (setDeleting (Some hobbit) sample_state)) hobbit eq_refl)
      as (_ & Hok).
    destruct (Hok eq_refl) as (_ & Hbooks & _). rewrite Hbooks. vm_compute; reflexivity.
  - destruct (proj2 (confirm_delete_outcomes
                       (Fulfilled (mkRes false (Fulfilled (JMessage "Book deleted"))))
                       (setDeleting (Some hobbit) sample_state)) hobbit eq_refl)
      as (Hfail & _).
    exact (proj1 (Hfail eq_refl)).
Defined.

Lemma untouched_forms_witness :
  snd (submitForm (Rejected "Failed to fetch") (openEdit hobbit sample_state))
  = Some (PUT 1 (mkBook 1 "The Hobbit" "J.R.R. Tolkien")).
Proof.
  refine (proj1 (untouched_forms (Rejected "Failed to fetch") hobbit sample_state) _ _);
    vm_compute; discriminate.
Defined.

Lemma id_sort_orders_by_id_witness :
  StronglySorted (fun a b => id b <= id a)
                 (filtered codeUnitCompare sample_shelf "dune" "id-desc").
Proof.
  refine (id_sort_orders_by_id codeUnitCompare sample_shelf "dune" "id-desc" _ _);
    vm_compute; reflexivity.
Defined.

Lemma text_sort_orders_by_collation_witness :
  StronglySorted (fun a b => codeUnitCompare (title a) (title b) <= 0)
                 (filtered codeUnitCompare [hobbit; orwell] "" "title-asc").
Proof.
  refine (proj1 (text_sort_orders_by_collation codeUnitCompare [hobbit; orwell] "" _ _)).
  - exact codeUnitCompare_flip.
  - exact codeUnitCompare_trans.
Defined.

Lemma search_ignores_query_case_witness :
  String E_acute "COLE" ∈ casings (String e_acute "cole") /\
  filtered codeUnitCompare [mkBook 3 (String E_acute "COLE") "Anne"; orwell]
           (String E_acute "COLE") "id-desc"
  = filtered codeUnitCompare [mkBook 3 (String E_acute "COLE") "Anne"; orwell]
             (String e_acute "cole") "id-desc".
Proof.
  assert (Hq : String E_acute "COLE" ∈ casings (String e_acute "cole")).
  { apply (bool_decide_eq_true_1 (String E_acute "COLE" ∈ casings (String e_acute "cole"))).
    vm_compute; reflexivity. }
  split; [exact Hq |].
  exact (search_ignores_query_case codeUnitCompare
           [mkBook 3 (String E_acute "COLE") "Anne"; orwell]
           (String e_acute "cole") (String E_acute "COLE") "id-desc" (or_introl Hq)).
Defined.

Lemma create_keeps_mirror_in_sync_witness :
  books (fst (createBook (Form.mk "Dune" "Frank Herbert")
                (Fulfilled (mkRes true (Fulfilled (mkBook 1700000000000 "Dune" "Frank Herbert"))))
                sample_state))
  = fst (post_books 1700000000000 "Dune" "Frank Herbert" initial_books).
Proof.
  refine (proj1 (create_keeps_mirror_in_sync decimalNumber 1700000000000
                   (Form.mk "Dune" "Frank Herbert") sample_state initial_books
                   (mkRes true (Fulfilled (mkBook 1700000000000 "Dune" "Frank Herbert")))
                   initial_app (mkRes true (Fulfilled initial_books)) _ _ _)).
  - reflexivity.
  - split; [reflexivity |]. intros x [= <-]. reflexivity.
  - split; [reflexivity |]. intros x [= <-]. reflexivity.
Defined.

Lemma delete_keeps_mirror_in_sync_witness :
  decimalNumber (numberToString 1) = Some 1 /\
  books (fst (removeBook 1 (Fulfilled (mkRes true (Fulfilled (JMessage "Book deleted"))))
                sample_state))
  = fst (delete_book decimalNumber "1" initial_books).
Proof.
  split; [vm_compute; reflexivity |].
  refine (delete_keeps_mirror_in_sync decimalNumber 0 1 sample_state initial_books
            (mkRes true (Fulfilled (JMessage "Book deleted"))) _ _ _).
  - reflexivity.
  - vm_compute; reflexivity.
  - split; [reflexivity |]. intros x [= <-]. reflexivity.
Defined.

Lemma update_keeps_mirror_in_sync_witness :
  NoDup (ids initial_books) /\
  books (fst (updateBook (mkBook 2 "Animal Farm" "George Orwell")
                (Fulfilled (mkRes true (Fulfilled (mkBook 2 "Animal Farm" "George Orwell"))))
                sample_state))
  = fst (put_book decimalNumber "2" "Animal Farm" "George Orwell" initial_books).
Proof.
  assert (Hnd : NoDup (ids initial_books)).
  { apply (bool_decide_eq_true_1 (NoDup (ids initial_books))). vm_compute; reflexivity. }
  split; [exact Hnd |].
  refine (update_keeps_mirror_in_sync decimalNumber 0
            (mkBook 2 "Animal Farm" "George Orwell") sample_state initial_books
            (mkRes true (Fulfilled (mkBook 2 "Animal Farm" "George Orwell"))) _ Hnd _).
  - reflexivity.
  - split; [vm_compute; reflexivity |]. intros x Hx. vm_compute in Hx.
    injection Hx as <-. reflexivity.
Defined.

Lemma page_never_exceeds_page_size_witness :
  totalPages sample_shelf < 3 /\ pageItems sample_shelf 3 = [].
Proof.
  split; [vm_compute; reflexivity |].
  apply (proj2 (page_never_exceeds_page_size sample_shelf 3)).
  left. vm_compute; reflexivity.
Defined.

Lemma submit_rejects_exactly_short_fields_witness :
  let st := setForm (fun _ => Form.mk " x " "Frank Herbert") sample_state in
  snd (submitForm (Rejected "Failed to fetch") st) = None /\
  books (fst (submitForm (Rejected "Failed to fetch") st)) = [hobbit; orwell].
Proof.
  cbv zeta.
  destruct (submit_rejects_exactly_short_fields (Rejected "Failed to fetch")
              (setForm (fun _ => Form.mk " x " "Frank Herbert") sample_state))
    as (_ & _ & Hnone & Hsame).
  assert (Hno : snd (submitForm (Rejected "Failed to fetch")
                       (setForm (fun _ => Form.mk " x " "Frank Herbert") sample_state))
                = None).
  { apply Hnone. vm_compute; reflexivity. }
  split; [exact Hno |]. exact (proj1 (Hsame Hno)).
Defined.

Lemma shown_records_are_the_matches_witness :
  blank "  " = true /\
  filtered codeUnitCompare [hobbit; orwell] "  " "title-asc" ≡ₚ [hobbit; orwell].
Proof.
  split; [reflexivity |].
  apply (proj2 (proj2 (proj2 (shown_records_are_the_matches codeUnitCompare
                                [hobbit; orwell] "  " "title-asc")))).
  reflexivity.
Defined.
